(** * rijeka-rss: a shallow embedding of [generate_feeds.py]

    The program scrapes a news page with CSS-selector fallback chains,
    builds an RSS feed from the scraped items and writes it to disk.
    This development embeds its functions as Rocq definitions and proves
    properties of them.

    Conventions.
    - The text of an element, which [clean], [re.findall] and [int] read
      character by character, is a [text]: the list of its Unicode code
      points, with the whitespace and the decimal digits of Python.  Every
      other [str] is only passed around, compared or concatenated and is a
      Rocq [string]; [Optional[str]] is [option string].
    - A Python [int] is a [Z].
    - The network, the HTML parser, the URL resolver, the wall clock and
      the feed serializer are black boxes: they are the fields of an
      [Env], which the program takes as a parameter.
    - Effects (requests sent, selectors queried, lines printed, the clock,
      the file system) live in a [World]; effectful code is written in the
      state-and-exception monad [M].
    - [scrape_items] is one function in the source; here its steps have
      names ([probe], [find_container], [scrape_item], [extract]), each
      with the lines it stands for. *)

From Stdlib Require Import String Ascii List ZArith Lia Bool DecimalString.
From stdpp Require Import base gmap strings list.
Import ListNotations.

(** ** Python strings *)

Module PyStr.

Local Open Scope Z_scope.

(** The text of an element, which the program reads character by
    character: the sequence of the Unicode code points of the [str]. *)
Definition text : Type := list Z.

(** The text whose code points are the character codes of [s] (for an
    ASCII literal, the literal). *)
Definition txt (s : string) : text :=
  map (fun c => Z.of_N (N_of_ascii c)) (list_ascii_of_string s).

(** [str.isspace] on one character.  The class [\s] of [re] on a [str]
    pattern and the characters that [str.strip()] removes are the same set,
    the one of CPython's [_PyUnicode_IsWhitespace]: tab to carriage return,
    the four separators 0x1C-0x1F, the space, next line, the no-break
    space, and the spaces and separators of the higher planes. *)
Definition isspace (c : Z) : bool :=
  ((0x09 <=? c) && (c <=? 0x0D)) || ((0x1C <=? c) && (c <=? 0x20))
  || (c =? 0x85) || (c =? 0xA0) || (c =? 0x1680)
  || ((0x2000 <=? c) && (c <=? 0x200A))
  || (c =? 0x2028) || (c =? 0x2029) || (c =? 0x202F) || (c =? 0x205F)
  || (c =? 0x3000).

(** The digit zero of every script that has decimal digits (general
    category Nd; Unicode 14.0.0, the database of Python 3.11).  The nine
    code points that follow a zero are the digits one to nine of its
    script. *)
Definition decimal_zeros : list Z :=
  [0x30; 0x660; 0x6F0; 0x7C0; 0x966; 0x9E6; 0xA66; 0xAE6; 0xB66; 0xBE6;
   0xC66; 0xCE6; 0xD66; 0xDE6; 0xE50; 0xED0; 0xF20; 0x1040; 0x1090; 0x17E0;
   0x1810; 0x1946; 0x19D0; 0x1A80; 0x1A90; 0x1B50; 0x1BB0; 0x1C40; 0x1C50;
   0xA620; 0xA8D0; 0xA900; 0xA9D0; 0xA9F0; 0xAA50; 0xABF0; 0xFF10; 0x104A0;
   0x10D30; 0x11066; 0x110F0; 0x11136; 0x111D0; 0x112F0; 0x11450; 0x114D0;
   0x11650; 0x116C0; 0x11730; 0x118E0; 0x11950; 0x11C50; 0x11D50; 0x11DA0;
   0x16A60; 0x16AC0; 0x16B50; 0x1D7CE; 0x1D7D8; 0x1D7E2; 0x1D7EC; 0x1D7F6;
   0x1E140; 0x1E2F0; 0x1E950; 0x1FBF0 ].

(** [unicodedata.decimal(c)]: the value of a decimal digit, [None] for any
    other character. *)
Definition decimal (c : Z) : option Z :=
  match List.find (fun z => (z <=? c) && (c <=? z + 9)) decimal_zeros with
  | Some z => Some (c - z)
  | None => None
  end.

(** [str.isdecimal] on one character, which is the class [\d] of [re] on a
    [str] pattern. *)
Definition isdecimal (c : Z) : bool :=
  match decimal c with
  | Some _ => true
  | None => false
  end.

(** [s.lstrip()] *)
Fixpoint lstrip (s : text) : text :=
  match s with
  | [] => []
  | c :: r => if isspace c then lstrip r else s
  end.

(** [s.rstrip()] *)
Fixpoint rstrip (s : text) : text :=
  match s with
  | [] => []
  | c :: r =>
      match rstrip r with
      | [] => if isspace c then [] else [c]
      | r' => c :: r'
      end
  end.

(** [s.strip()] *)
Definition strip (s : text) : text := rstrip (lstrip s).

(** [re.sub(r"\s+", " ", s)]: every maximal run of whitespace becomes one
    space.  [in_run] tells that the previous character was whitespace, so
    that the run was already replaced. *)
Fixpoint sub_spaces (in_run : bool) (s : text) : text :=
  match s with
  | [] => []
  | c :: r =>
      if isspace c
      then (if in_run then sub_spaces true r
            else 0x20 :: sub_spaces true r)
      else c :: sub_spaces false r
  end.

(** [re.findall] of a pattern [C+] for a class [C] of characters: the
    maximal runs of characters of the class, left to right.  [cur] is the
    run being read. *)
Definition flush (cur : text) : list text :=
  match cur with
  | [] => []
  | _ => [cur]
  end.

Fixpoint findall_from (cls : Z -> bool) (cur : text) (s : text) : list text :=
  match s with
  | [] => flush cur
  | c :: r =>
      if cls c
      then findall_from cls (cur ++ [c]) r
      else flush cur ++ findall_from cls [] r
  end.

(** [re.findall(r"\d+", s)] *)
Definition findall_digits (s : text) : list text :=
  findall_from isdecimal [] s.

(** The number that a text of decimal digits writes; [None] for the empty
    text and for a text with another character in it. *)
Fixpoint digits_from (acc : Z) (s : text) : option Z :=
  match s with
  | [] => Some acc
  | c :: r =>
      match decimal c with
      | Some v => digits_from (10 * acc + v) r
      | None => None
      end
  end.

Definition digits_value (s : text) : option Z :=
  match s with
  | [] => None
  | _ => digits_from 0 s
  end.

(** The default of [sys.get_int_max_str_digits()]. *)
Definition max_str_digits : Z := 4300.

(** The other strings of the program (URLs, selectors, slugs, attribute
    values, response bodies, messages) are only compared, concatenated,
    tested for emptiness and searched for an ASCII token; they are Rocq
    strings. *)

(** [needle in s] *)
Fixpoint contains (needle s : string) : bool :=
  String.prefix needle s
  || match s with
     | EmptyString => false
     | String _ r => contains needle r
     end.

(** Truth value of a [str]: the empty string is false. *)
Definition nonempty (s : string) : bool :=
  match s with
  | EmptyString => false
  | String _ _ => true
  end.

End PyStr.

Import PyStr.

(** [clean], lines 32-33.  Every caller passes a [str] (the result of
    [get_text()]), for which [s or ""] is [s]. *)
Definition clean (s : text) : text := sub_spaces false (strip s).

(** A text is left-tight when it does not start with whitespace. *)
Definition left_tight (s : text) : bool :=
  match s with
  | [] => true
  | c :: _ => negb (isspace c)
  end.

(** ** Exceptions *)

(** The exceptions the program can meet.  [RequestException] stands for
    whatever [requests.get] or [raise_for_status] raise (connection error,
    timeout, HTTP error status); [OSError] for a failing file operation. *)
Inductive Exn : Type :=
  | RequestException (url : string)
  | RuntimeError (msg : string)
  | ValueError (msg : string)
  | OverflowError (msg : string)
  | OSError (path : list string).

Inductive Result (A : Type) : Type :=
  | Ok (a : A)
  | Raise (e : Exn).

Arguments Ok {A} a.
Arguments Raise {A} e.

(** ** [int] *)

Definition show (n : Z) : string := NilZero.string_of_int (Z.to_int n).

Definition exceeds_limit_msg (n : Z) : string :=
  "Exceeds the limit (4300 digits) for integer string conversion: value has "
  +:+ show n +:+ " digits; use sys.set_int_max_str_digits() to increase the limit".

Definition invalid_literal_msg : string := "invalid literal for int() with base 10".

(** [int(s)] for a text of decimal digits, which is what the program
    passes: a text of more than 4300 digits (leading zeros count) raises
    [ValueError], any other gives the number it writes, whatever the
    script of each digit.  (Python also accepts a sign, blanks around the
    number and underscores between digits; here a text with anything but
    digits in it is an invalid literal.) *)
Definition int (s : text) : Result Z :=
  if (max_str_digits <? Z.of_nat (length s))%Z
  then Raise (ValueError (exceeds_limit_msg (Z.of_nat (length s))))
  else match digits_value s with
       | Some n => Ok n
       | None => Raise (ValueError invalid_literal_msg)
       end.

(** ** [datetime] *)

Module Datetime.

Local Open Scope Z_scope.

(** An aware [datetime] in UTC. *)
Record datetime : Type := {
  year : Z; month : Z; day : Z;
  hour : Z; minute : Z; second : Z; microsecond : Z
}.

Definition is_leap (y : Z) : bool :=
  (y mod 4 =? 0) && (negb (y mod 100 =? 0) || (y mod 400 =? 0)).

Definition days_in_month (y m : Z) : Z :=
  if m =? 2 then (if is_leap y then 29 else 28)
  else if (m =? 4) || (m =? 6) || (m =? 9) || (m =? 11) then 30
  else 31.

(** The bounds of a C [int] and of a C [long] (LP64). *)
Definition c_int_max : Z := 2147483647.
Definition c_long_max : Z := 9223372036854775807.

(** The conversion of an argument of the constructor to a C [int]: a
    number that does not fit raises [OverflowError]. *)
Definition as_c_int (v : Z) : Result Z :=
  if (v <? - c_long_max - 1) || (c_long_max <? v)
  then Raise (OverflowError "Python int too large to convert to C long")
  else if c_int_max <? v
  then Raise (OverflowError "signed integer is greater than maximum")
  else if v <? - c_int_max - 1
  then Raise (OverflowError "signed integer is less than minimum")
  else Ok v.

(** The range checks of the constructor: the year, then the month, then
    the day; the first field out of range raises [ValueError]. *)
Definition check_date (y m d : Z) : Result datetime :=
  if negb ((1 <=? y) && (y <=? 9999))
  then Raise (ValueError ("year " +:+ show y +:+ " is out of range"))
  else if negb ((1 <=? m) && (m <=? 12))
  then Raise (ValueError "month must be in 1..12")
  else if negb ((1 <=? d) && (d <=? days_in_month y m))
  then Raise (ValueError "day is out of range for month")
  else Ok {| year := y; month := m; day := d;
             hour := 0; minute := 0; second := 0; microsecond := 0 |}.

(** [datetime(y, m, d, tzinfo=timezone.utc)]: the arguments are converted
    to C [int]s in their order, then the ranges are checked. *)
Definition make (y m d : Z) : Result datetime :=
  match as_c_int y with
  | Raise e => Raise e
  | Ok _ =>
      match as_c_int m with
      | Raise e => Raise e
      | Ok _ =>
          match as_c_int d with
          | Raise e => Raise e
          | Ok _ => check_date y m d
          end
      end
  end.


End Datetime.

Import Datetime.

(** ** The parsed document *)

(** A [bs4] element, as far as the program looks at it: its text, its
    attributes, and what each CSS selector matches below it, in document
    order.  The selector engine is not modelled: an element carries its
    answers.  The truth value of an element is always true ([Tag.__bool__]),
    and a [BeautifulSoup] document is an element too. *)
#[warnings="-register-all"] Inductive Tag : Type := MkTag {
  get_text : text;
  attrs : list (string * string);
  select : string -> list Tag
}.

(** [el.select_one(sel)] is the first element of [el.select(sel)], if any. *)
Definition select_one (el : Tag) (sel : string) : option Tag :=
  head (select el sel).

(** [el.get(key)] *)
Fixpoint lookup_attr (key : string) (l : list (string * string)) : option string :=
  match l with
  | [] => None
  | (k, v) :: r => if String.eqb k key then Some v else lookup_attr key r
  end.

Definition get (el : Tag) (key : string) : option string :=
  lookup_attr key (attrs el).

(** Truth value of an [Optional[str]]. *)
Definition truthy (o : option string) : bool :=
  match o with
  | Some s => nonempty s
  | None => false
  end.

(** Truth value of [link_el and link_el.get("href")]. *)
Definition has_href (o : option Tag) : bool :=
  match o with
  | Some el => truthy (get el "href")
  | None => false
  end.

(** ** Configuration and items *)

Record SiteConfig : Type := {
  slug : string;
  title : string;
  page_url : string;
  item_selectors : list string;
  title_selectors : list string;
  link_selectors : list string;
  date_selectors : list string
}.

(** The dictionary appended at line 137, with its keys ["title"], ["link"]
    and ["date"]. *)
Record Item : Type := {
  it_title : text;
  it_link : option string;
  it_date : datetime
}.

(** ** The feed object *)

(** A [FeedEntry] of feedgen, with the fields the program sets: [id] (which
    feedgen also writes as the RSS guid), [title], [link] and [pubDate]. *)
Record FeedEntry : Type := {
  entry_id : option string;
  entry_title : option text;
  entry_link : option string;
  entry_pubDate : option datetime
}.

Definition blank_entry : FeedEntry :=
  {| entry_id := None; entry_title := None; entry_link := None; entry_pubDate := None |}.

(** A [FeedGenerator]: the channel fields and the list of entries, which
    [rss_str] writes out from first to last. *)
Record FeedGenerator : Type := {
  fg_title : option string;
  fg_link : option (string * string);
  fg_description : option string;
  fg_language : option string;
  fg_entries : list FeedEntry
}.

Definition set_entries (es : list FeedEntry) (fg : FeedGenerator) : FeedGenerator :=
  {| fg_title := fg_title fg; fg_link := fg_link fg;
     fg_description := fg_description fg; fg_language := fg_language fg;
     fg_entries := es |}.

(** [fg.add_entry()].  The signature in feedgen is
    [add_entry(self, feedEntry=None, order='prepend')]: called without
    [order], it inserts the new entry at index 0 of the entry list. *)
Definition add_entry (fg : FeedGenerator) : FeedGenerator :=
  set_entries (blank_entry :: fg_entries fg) fg.

(** A setter called on [fe], the object [add_entry] returned.  The list
    holds that same object, at index 0 until the next [add_entry]. *)
Definition on_fe (f : FeedEntry -> FeedEntry) (fg : FeedGenerator) : FeedGenerator :=
  match fg_entries fg with
  | fe :: r => set_entries (f fe :: r) fg
  | [] => fg
  end.

Definition fe_id (v : option string) (fe : FeedEntry) : FeedEntry :=
  {| entry_id := v; entry_title := entry_title fe;
     entry_link := entry_link fe; entry_pubDate := entry_pubDate fe |}.

Definition fe_title (v : text) (fe : FeedEntry) : FeedEntry :=
  {| entry_id := entry_id fe; entry_title := Some v;
     entry_link := entry_link fe; entry_pubDate := entry_pubDate fe |}.

Definition fe_link (href : option string) (fe : FeedEntry) : FeedEntry :=
  {| entry_id := entry_id fe; entry_title := entry_title fe;
     entry_link := href; entry_pubDate := entry_pubDate fe |}.

Definition fe_pubDate (v : datetime) (fe : FeedEntry) : FeedEntry :=
  {| entry_id := entry_id fe; entry_title := entry_title fe;
     entry_link := entry_link fe; entry_pubDate := Some v |}.

(** ** The world *)

(** A path is the list of its components below the working directory, as
    [Path.parts] gives them.  [out_dir / name] appends [name] as one
    component when [name] is a file name, that is when it holds no [/]
    (pathlib splits a name at each [/]); the slug of a configuration is
    such a token, as are the three slugs of [main]. *)
Abbreviation Path := (list string).

(** What the program does to its surroundings, in order. *)
Inductive Event : Type :=
  | Get (url : string)                    (* requests.get(url, ...) *)
  | Print (line : string)                 (* print(line) *)
  | Select (el : Tag) (sel : string)      (* el.select(sel) *)
  | SelectOne (el : Tag) (sel : string)   (* el.select_one(sel) *)
  | Mkdir (p : Path)                      (* p.mkdir(parents=True, exist_ok=True) *)
  | WriteBytes (p : Path) (data : string) (* p.write_bytes(data) *).

(** The state the program runs in: the events so far, the number of clock
    readings so far, and the file system (directories and regular files). *)
Record World : Type := {
  trace : list Event;
  ticks : nat;
  dirs : gset Path;
  files : gmap Path string
}.

(** [advance evs k w]: the world after the events [evs] and [k] clock
    readings, the file system untouched. *)
Definition advance (evs : list Event) (k : nat) (w : World) : World :=
  {| trace := trace w ++ evs; ticks := ticks w + k; dirs := dirs w; files := files w |}.

Definition add_dir (p : Path) (w : World) : World :=
  {| trace := trace w; ticks := ticks w; dirs := {[ p ]} ∪ dirs w; files := files w |}.

Definition put_file (p : Path) (data : string) (w : World) : World :=
  {| trace := trace w; ticks := ticks w; dirs := dirs w; files := <[ p := data ]> (files w) |}.

(** The black boxes of the program. *)
Record Env : Type := {
  (** [requests.get(url, headers=HEADERS, timeout=timeout)] followed by
      [raise_for_status()] and [.text]: the body of the response, or
      [None] when the request fails or the status is an error *)
  http_get : string -> option string;
  (** [BeautifulSoup(html, "lxml")] *)
  BeautifulSoup : string -> Tag;
  (** [urljoin(base, url)] of [urllib.parse] when both are non-empty.
      ([urljoin] raises [ValueError] on a URL that it cannot split, such as
      one with an unbalanced bracket in its host; the environments of this
      development resolve every reference.) *)
  urljoin_rfc : string -> string -> string;
  (** the [k]-th reading of [datetime.now(timezone.utc)] *)
  utcnow : nat -> datetime;
  (** [fg.rss_str(pretty=True)] *)
  rss_str : FeedGenerator -> Result string
}.

(** ** The monad of effectful code *)

(** A computation takes a world and gives a value or a raised exception,
    and the world it leaves.  An exception does not undo effects. *)
Definition M (A : Type) : Type := World -> Result A * World.

Definition ret {A : Type} (a : A) : M A := fun w => (Ok a, w).

Definition bind {A B : Type} (m : M A) (k : A -> M B) : M B :=
  fun w =>
    match m w with
    | (Ok a, w') => k a w'
    | (Raise e, w') => (Raise e, w')
    end.

Definition raise {A : Type} (e : Exn) : M A := fun w => (Raise e, w).

(** [try: m  except Exception: h] *)
Definition try_except {A : Type} (m : M A) (h : Exn -> M A) : M A :=
  fun w =>
    match m w with
    | (Ok a, w') => (Ok a, w')
    | (Raise e, w') => h e w'
    end.

Definition lift {A : Type} (r : Result A) : M A := fun w => (r, w).

Definition emit (e : Event) : M unit := fun w => (Ok tt, advance [e] 0 w).

Declare Scope py_scope.
Delimit Scope py_scope with py.
Notation "x <- c ;; k" := (bind c (fun x => k))
  (at level 100, c at next level, right associativity) : py_scope.
Notation "c ;; k" := (bind c (fun _ => k))
  (at level 100, right associativity) : py_scope.
Local Open Scope py_scope.

(** ** File operations *)

(** The ancestors of a path and the path itself, shortest first. *)
Fixpoint prefixes (p : Path) : list Path :=
  match p with
  | [] => []
  | c :: r => [c] :: map (cons c) (prefixes r)
  end.

(** Creating the directories [ps] in turn; a regular file in the way
    raises. *)
Fixpoint mkdir_each (ps : list Path) : M unit :=
  match ps with
  | [] => ret tt
  | p :: rest =>
      fun w =>
        match files w !! p with
        | Some _ => (Raise (OSError p), w)
        | None => mkdir_each rest (add_dir p w)
        end
  end.

(** [p.mkdir(parents=True, exist_ok=True)] *)
Definition mkdir (p : Path) : M unit :=
  emit (Mkdir p) ;; mkdir_each (prefixes p).

Definition is_dir (p : Path) (w : World) : bool :=
  match p with
  | [] => true
  | _ => bool_decide (p ∈ dirs w)
  end.

(** [p.write_bytes(data)]: fails on a directory and below a missing
    directory, otherwise creates or overwrites the file. *)
Definition write_bytes (p : Path) (data : string) : M unit :=
  emit (WriteBytes p data) ;;
  (fun w =>
     if is_dir p w then (Raise (OSError p), w)
     else if negb (is_dir (removelast p) w) then (Raise (OSError p), w)
     else (Ok tt, put_file p data w)).

(** ** The program *)

Definition dquote : string := String (ascii_of_nat 34) EmptyString.

(** The selector of [find_existing_rss], line 47. *)
Definition rss_link_selector : string :=
  "link[rel=" +:+ dquote +:+ "alternate" +:+ dquote +:+ "][type*=" +:+ dquote +:+ "rss" +:+ dquote
  +:+ "], link[rel=" +:+ dquote +:+ "alternate" +:+ dquote +:+ "][type*=" +:+ dquote +:+ "xml" +:+ dquote +:+ "]".

(** The messages of the two [RuntimeError]s of [scrape_items], lines 102
    and 140. *)
Definition no_container_msg (cfg : SiteConfig) : string :=
  "[" +:+ slug cfg +:+ "] Ne nalazim elemente. Provjeri item_selectors za: " +:+ page_url cfg.

Definition none_parsable_msg (cfg : SiteConfig) : string :=
  "[" +:+ slug cfg +:+ "] Našao sam kontejnere, ali nisam izvukao nijedan item (naslov/link).".

Section Program.

Variable env : Env.

(** [urljoin(base, url)] for a [str] argument: an empty base gives [url],
    an empty [url] gives the base. *)
Definition urljoin_str (base url : string) : string :=
  if negb (nonempty base) then url
  else if negb (nonempty url) then base
  else urljoin_rfc env base url.

(** [urljoin(base, url)] where [url] may be [None]: the same two guards
    come first, so [None] with a non-empty base gives the base. *)
Definition urljoin (base : string) (url : option string) : option string :=
  match url with
  | Some u => Some (urljoin_str base u)
  | None => if negb (nonempty base) then None else Some base
  end.

(** [datetime.now(timezone.utc)] *)
Definition now : M datetime :=
  fun w => (Ok (utcnow env (ticks w)), advance [] 1 w).

(** [fetch], lines 36-39. *)
Definition fetch (url : string) : M string :=
  emit (Get url) ;;
  match http_get env url with
  | Some text => ret text
  | None => raise (RequestException url)
  end.

(** [find_existing_rss], lines 42-50. *)
Definition find_existing_rss (page_html base_url : string) : M (option string) :=
  let soup := BeautifulSoup env page_html in
  emit (SelectOne soup rss_link_selector) ;;
  let link := select_one soup rss_link_selector in
  if has_href link
  then ret (urljoin base_url (match link with Some l => get l "href" | None => None end))
  else ret None.

(** [guess_common_rss_endpoints], lines 53-63. *)
Definition guess_common_rss_endpoints (base : string) : list string :=
  [ urljoin_str base "/feed/";
    urljoin_str base "/?feed=rss2";
    urljoin_str base "/rss";
    urljoin_str base "/rss.xml";
    urljoin_str base "/feed.xml" ].

(** [try_fetch_rss], lines 66-75. *)
Fixpoint try_fetch_rss (urls : list string) : M (option string) :=
  match urls with
  | [] => ret None
  | u :: rest =>
      hit <- try_except
               (xml <- fetch u ;;
                ret (contains "<rss" xml || contains "<feed" xml))
               (fun _ => ret false) ;;
      if hit then ret (Some u) else try_fetch_rss rest
  end.

(** Lines 82-91 of [scrape_items]: the two informational checks. *)
Definition probe (cfg : SiteConfig) (html : string) : M unit :=
  rss_url <- find_existing_rss html (page_url cfg) ;;
  (if truthy rss_url
   then emit (Print ("[" +:+ slug cfg +:+ "] Found RSS in head: "
                     +:+ match rss_url with Some u => u | None => "" end))
   else ret tt) ;;
  guessed <- try_fetch_rss (guess_common_rss_endpoints (page_url cfg)) ;;
  (if truthy guessed
   then emit (Print ("[" +:+ slug cfg +:+ "] Guessed RSS endpoint works: "
                     +:+ match guessed with Some u => u | None => "" end))
   else ret tt).

(** Lines 94-99: the loop over [item_selectors]; [None] when it ends
    without [break]. *)
Fixpoint container_loop (soup : Tag) (sels : list string) : M (option (list Tag)) :=
  match sels with
  | [] => ret None
  | sel :: rest =>
      emit (Select soup sel) ;;
      let found := select soup sel in
      match found with
      | _ :: _ => ret (Some found)
      | [] => container_loop soup rest
      end
  end.

(** Lines 94-102: container selection. *)
Definition find_container (cfg : SiteConfig) (soup : Tag) : M (list Tag) :=
  container <- container_loop soup (item_selectors cfg) ;;
  match container with
  | Some (c :: r) => ret (c :: r)
  | _ => raise (RuntimeError (no_container_msg cfg))
  end.

(** Lines 106-110: the loop over [title_selectors]; the variable
    [title_el] keeps its last assignment. *)
Fixpoint title_loop (it : Tag) (sels : list string) (title_el : option Tag) : M (option Tag) :=
  match sels with
  | [] => ret title_el
  | ts :: rest =>
      emit (SelectOne it ts) ;;
      let title_el := select_one it ts in
      match title_el with
      | Some _ => ret title_el
      | None => title_loop it rest title_el
      end
  end.

(** Lines 112-116: the loop over [link_selectors]; it breaks on an element
    with a non-empty [href], and the variable [link_el] keeps its last
    assignment. *)
Fixpoint link_loop (it : Tag) (sels : list string) (link_el : option Tag) : M (option Tag) :=
  match sels with
  | [] => ret link_el
  | ls :: rest =>
      emit (SelectOne it ls) ;;
      let link_el := select_one it ls in
      if has_href link_el then ret link_el
      else link_loop it rest link_el
  end.

(** Line 133: [d, m, y = map(int, parts[:3])] converts the three groups in
    their order; line 134 builds the date. *)
Definition date_of (p0 p1 p2 : text) : Result datetime :=
  match int p0 with
  | Raise e => Raise e
  | Ok d =>
      match int p1 with
      | Raise e => Raise e
      | Ok m =>
          match int p2 with
          | Raise e => Raise e
          | Ok y => Datetime.make y m d
          end
      end
  end.

(** Lines 131-134: the digit groups of the text and, with three or more of
    them, the date they give. *)
Definition parse_date (raw : text) (dt : datetime) : M datetime :=
  match findall_digits raw with
  | p0 :: p1 :: p2 :: _ => lift (date_of p0 p1 p2)
  | _ => ret dt
  end.

(** Lines 126-135: the loop over [date_selectors]: the first selector that
    matches decides, then [break]. *)
Fixpoint date_loop (it : Tag) (sels : list string) (dt : datetime) : M datetime :=
  match sels with
  | [] => ret dt
  | ds :: rest =>
      emit (SelectOne it ds) ;;
      match select_one it ds with
      | Some d_el => parse_date (clean (get_text d_el)) dt
      | None => date_loop it rest dt
      end
  end.

(** Lines 118-137: what becomes of a candidate once [title_el] and
    [link_el] are set.  [None] is the [continue] of line 119. *)
Definition finish_item (cfg : SiteConfig) (it : Tag) (title_el link_el : option Tag) : M (option Item) :=
  match title_el, link_el with
  | Some title_el, Some link_el =>
      let title := clean (get_text title_el) in
      let link := urljoin (page_url cfg) (get link_el "href") in
      dt <- now ;;
      dt <- date_loop it (date_selectors cfg) dt ;;
      ret (Some {| it_title := title; it_link := link; it_date := dt |})
  | _, _ => ret None
  end.

(** Lines 106-137: the body of the loop over the candidates. *)
Definition scrape_item (cfg : SiteConfig) (it : Tag) : M (option Item) :=
  title_el <- title_loop it (title_selectors cfg) None ;;
  link_el <- link_loop it (link_selectors cfg) None ;;
  finish_item cfg it title_el link_el.

(** Lines 105-137: the loop over the candidates, appending to [items]. *)
Fixpoint items_loop (cfg : SiteConfig) (cands : list Tag) (items : list Item) : M (list Item) :=
  match cands with
  | [] => ret items
  | it :: rest =>
      r <- scrape_item cfg it ;;
      items_loop cfg rest (match r with Some x => items ++ [x] | None => items end)
  end.

(** Lines 104-142: from the container to the items. *)
Definition extract (cfg : SiteConfig) (container : list Tag) : M (list Item) :=
  items <- items_loop cfg (take 30 container) [] ;;
  match items with
  | [] => raise (RuntimeError (none_parsable_msg cfg))
  | _ => ret items
  end.

(** [scrape_items], lines 78-142. *)
Definition scrape_items (cfg : SiteConfig) : M (list Item) :=
  html <- fetch (page_url cfg) ;;
  let soup := BeautifulSoup env html in
  probe cfg html ;;
  container <- find_container cfg soup ;;
  extract cfg container.

(** Lines 155-159: one turn of the loop over the items. *)
Definition add_item (fg : FeedGenerator) (it : Item) : FeedGenerator :=
  let fg := add_entry fg in
  let fg := on_fe (fe_id (it_link it)) fg in
  let fg := on_fe (fe_title (it_title it)) fg in
  let fg := on_fe (fe_link (it_link it)) fg in
  on_fe (fe_pubDate (it_date it)) fg.

(** Lines 148-159: the feed object built from the items. *)
Definition feed_of (cfg : SiteConfig) (items : list Item) : FeedGenerator :=
  let fg :=
    {| fg_title := Some (title cfg);
       fg_link := Some (page_url cfg, "alternate");
       fg_description := Some ("Generirani RSS za: " +:+ page_url cfg);
       fg_language := Some "hr";
       fg_entries := [] |} in
  fold_left add_item items fg.

(** [build_rss], lines 145-164. *)
Definition build_rss (cfg : SiteConfig) (out_dir : Path) : M Path :=
  items <- scrape_items cfg ;;
  let fg := feed_of cfg items in
  mkdir out_dir ;;
  let out_path := out_dir ++ [slug cfg +:+ ".xml"] in
  data <- lift (rss_str env fg) ;;
  write_bytes out_path data ;;
  ret out_path.

End Program.

(** ** Vocabulary of the statements *)

(** The selectors passed to [select], in order. *)
Fixpoint selects_of (evs : list Event) : list string :=
  match evs with
  | [] => []
  | Select _ sel :: r => sel :: selects_of r
  | _ :: r => selects_of r
  end.

Definition is_select (e : Event) : Prop :=
  match e with Select _ _ => True | _ => False end.

(** File-system events. *)
Definition is_fs (e : Event) : Prop :=
  match e with Mkdir _ | WriteBytes _ _ => True | _ => False end.

(** Events that query one of the elements [els]. *)
Definition queries (els : list Tag) (e : Event) : Prop :=
  match e with SelectOne el _ => In el els | _ => False end.

(** Network events. *)
Definition is_get (e : Event) : Prop :=
  match e with Get _ => True | _ => False end.

(** The events of the informational checks on the document [soup]. *)
Definition is_probe (soup : Tag) (e : Event) : Prop :=
  match e with
  | Get _ | Print _ => True
  | SelectOne el sel => el = soup /\ sel = rss_link_selector
  | _ => False
  end.

(** [effects P m]: whatever [m] returns or raises, it leaves the world it
    started in advanced by events that satisfy [P]. *)
Definition effects {A : Type} (P : Event -> Prop) (m : M A) : Prop :=
  forall w, exists evs k, snd (m w) = advance evs k w /\ Forall P evs.

(** [logs m a evs]: in every world, [m] returns [a] and does exactly the
    events [evs]. *)
Definition logs {A : Type} (m : M A) (a : A) (evs : list Event) : Prop :=
  forall w, m w = (Ok a, advance evs 0 w).

(** The candidate is skipped at line 119: no item is appended for it. *)
Definition dropped (env : Env) (cfg : SiteConfig) (it : Tag) : Prop :=
  forall w, fst (scrape_item env cfg it w) = Ok None.

(** No title selector matches below the candidate. *)
Definition lacks_title (cfg : SiteConfig) (it : Tag) : Prop :=
  Forall (fun ts => select_one it ts = None) (title_selectors cfg).

(** No link selector matches below the candidate. *)
Definition lacks_link (cfg : SiteConfig) (it : Tag) : Prop :=
  Forall (fun ls => select_one it ls = None) (link_selectors cfg).

(** No link selector matches an element with a non-empty [href]. *)
Definition lacks_href (cfg : SiteConfig) (it : Tag) : Prop :=
  Forall (fun ls => has_href (select_one it ls) = false) (link_selectors cfg).

(** The item [x] carries the normalized text of what a title selector
    matches below the candidate [it]. *)
Definition titled_from (cfg : SiteConfig) (it : Tag) (x : Item) : Prop :=
  exists ts t, In ts (title_selectors cfg) /\ select_one it ts = Some t
               /\ it_title x = clean (get_text t).

(** What the date of a candidate can raise: the [ValueError] of [int] or of
    the range checks of [datetime], or the [OverflowError] of [datetime]. *)
Definition date_error (e : Exn) : Prop :=
  match e with
  | ValueError _ | OverflowError _ => True
  | _ => False
  end.

(** The element [t] is what the loop of lines 106-110 leaves in
    [title_el]: the first match of the first title selector that matches
    below the candidate [it]. *)
Definition title_element (cfg : SiteConfig) (it t : Tag) : Prop :=
  exists pre ts post,
    title_selectors cfg = pre ++ ts :: post
    /\ Forall (fun x => select_one it x = None) pre
    /\ select_one it ts = Some t.

(** The item [x] carries the normalized text of the title element of the
    candidate [it]. *)
Definition titled_first (cfg : SiteConfig) (it : Tag) (x : Item) : Prop :=
  exists t, title_element cfg it t /\ it_title x = clean (get_text t).

(** A text that is empty or holds nothing but whitespace. *)
Definition all_space (s : text) : bool := forallb isspace s.

(** The selector [s] is the first of [sels] that matches in [soup]. *)
Definition first_match (soup : Tag) (sels pre : list string) (s : string) (post : list string) : Prop :=
  sels = pre ++ s :: post
  /\ Forall (fun sel => select soup sel = []) pre
  /\ select soup s <> [].

(** The entry the loop of [build_rss] makes of an item. *)
Definition entry_of (it : Item) : FeedEntry :=
  {| entry_id := it_link it; entry_title := Some (it_title it);
     entry_link := it_link it; entry_pubDate := Some (it_date it) |}.

(** A normalized text: it does not start with whitespace, and each
    whitespace character in it is a space followed by a character that is
    not whitespace. *)
Fixpoint single_spaced (s : text) : bool :=
  match s with
  | [] => true
  | c :: r =>
      (if isspace c
       then (c =? 0x20)%Z && match r with
                             | [] => false
                             | c' :: _ => negb (isspace c')
                             end
       else true)
      && single_spaced r
  end.

Definition normalized (s : text) : bool := left_tight s && single_spaced s.

(** ** Sample pages *)

Module Sample.

Local Open Scope Z_scope.

(** An element without descendants, with the text [t]. *)
Definition leaf_of (t : text) (attributes : list (string * string)) : Tag :=
  MkTag t attributes (fun _ => []).

(** The same for an ASCII text. *)
Definition leaf (s : string) (attributes : list (string * string)) : Tag :=
  leaf_of (txt s) attributes.

Fixpoint table_select (table : list (string * list Tag)) (sel : string) : list Tag :=
  match table with
  | [] => []
  | (k, v) :: r => if String.eqb k sel then v else table_select r sel
  end.

(** An element given by the table of what each selector matches below it. *)
Definition node (table : list (string * list Tag)) : Tag :=
  MkTag [] [] (table_select table).

Definition base : string := "https://example.hr/".

Definition cfg : SiteConfig :=
  {| slug := "vijesti";
     title := "Vijesti (generirano)";
     page_url := base;
     item_selectors := ["article"; ".post"; "li"];
     title_selectors := ["h2 a"; "h2"];
     link_selectors := ["h2 a"; "a"];
     date_selectors := ["time"; ".date"] |}.

Definition clock (k : nat) : datetime :=
  {| year := 2026; month := 3; day := 14;
     hour := 9; minute := 30; second := Z.of_nat k; microsecond := 0 |}.

(** A server that answers the page URL only, with a page that parses to
    [soup].  References are resolved as [urljoin] resolves an absolute URL
    or an absolute path against [base]. *)
Definition site (soup : Tag) : Env :=
  {| http_get := fun url => if String.eqb url base then Some "<html>" else None;
     BeautifulSoup := fun _ => soup;
     urljoin_rfc := fun _ url =>
       if String.prefix "https://" url then url else "https://example.hr" +:+ url;
     utcnow := clock;
     rss_str := fun _ => Ok "<rss/>" |}.

(** A server that is down. *)
Definition offline : Env :=
  {| http_get := fun _ => None;
     BeautifulSoup := fun _ => node [];
     urljoin_rfc := fun _ url => url;
     utcnow := clock;
     rss_str := fun _ => Ok "<rss/>" |}.

Definition w0 : World := {| trace := []; ticks := 0; dirs := ∅; files := ∅ |}.

(** A world where an earlier run left a feed file. *)
Definition w_old : World :=
  {| trace := []; ticks := 0;
     dirs := {[ ["docs"] ]} ∪ {[ ["docs"; "rss"] ]};
     files := {[ ["docs"; "rss"; "vijesti.xml"] := "<rss>old</rss>" ]} |}.

(** What the selectors of [cfg] match below
    [<h2><a href=...>text</a></h2>]. *)
Definition headline_of (t : text) (href : string) : list (string * list Tag) :=
  [("h2 a", [leaf_of t [("href", href)]]);
   ("h2", [leaf_of t []]);
   ("a", [leaf_of t [("href", href)]])].

Definition headline (s href : string) : list (string * list Tag) :=
  headline_of (txt s) href.

(** A headline with a link and no date. *)
Definition article (s href : string) : Tag := node (headline s href).

(** [<article><h2>Obavijest</h2><a name="top">vise</a></article>]: the only
    anchor has no [href]. *)
Definition article_nohref : Tag :=
  node [("h2", [leaf "Obavijest" []]);
        ("a", [leaf "vise" [("name", "top")]])].

(** An article whose [time] element reads year, month, day. *)
Definition article_ymd : Tag :=
  node (headline "Naslov" "/a1" ++ [("time", [leaf "2024 05 12" []])]).

(** An article whose [time] element reads a thirteenth month. *)
Definition article_month13 : Tag :=
  node (headline "Naslov" "/a1" ++ [("time", [leaf "12.13.2024." []])]).

(** An article whose headline link has no text. *)
Definition article_blank : Tag := node (headline "   " "/a1").

(** [<h2><a href="/a1">&nbsp;</a></h2>]: the headline link holds a
    no-break space, U+00A0, and nothing else. *)
Definition article_nbsp : Tag := node (headline_of [0xA0%Z] "/a1").



(** An article with a date in day, month, year order. *)
Definition article_dmy : Tag :=
  node (headline "Naslov" "/a1"
        ++ [("time", [leaf "Objavljeno 12.05.2024." []]);
            (".date", [leaf "01.01.2020." []])]).

(** An article with neither headline nor link. *)
Definition article_bare : Tag := node [("p", [leaf "tekst" []])].

Definition page (articles : list Tag) : Tag := node [("article", articles)].

(** A page without [article] elements, with one [.post] and two [li]. *)
Definition page_posts : Tag :=
  node [(".post", [article "Prva" "/p1"]);
        ("li", [article "Druga" "/p2"; article "Treca" "/p3"])].

(** Forty candidates: twenty-nine bare ones, then eleven good ones. *)
Definition page_forty : Tag :=
  page (repeat article_bare 29 ++ repeat (article "Vijest" "/v") 11).

Definition item_a : Item :=
  {| it_title := txt "A"; it_link := Some "https://example.hr/a"; it_date := clock 0 |}.

Definition item_b : Item :=
  {| it_title := txt "B"; it_link := Some "https://example.hr/b"; it_date := clock 1 |}.

End Sample.

(** ** The runner *)

(** [str(p)] for a relative path. *)
Fixpoint path_str (p : Path) : string :=
  match p with
  | [] => "."
  | c :: r =>
      match r with
      | [] => c
      | _ :: _ => c +:+ "/" +:+ path_str r
      end
  end.

(** The path [out_dir / f"{cfg.slug}.xml"] of line 162. *)
Definition out_path (cfg : SiteConfig) (out_dir : Path) : Path :=
  out_dir ++ [slug cfg +:+ ".xml"].

(** Lines 201-203: the loop over the configurations.  Nothing catches what
    [build_rss] raises. *)
Fixpoint main_loop (env : Env) (configs : list SiteConfig) (out_dir : Path) : M unit :=
  match configs with
  | [] => ret tt
  | cfg :: rest =>
      p <- build_rss env cfg out_dir ;;
      emit (Print ("OK -> " +:+ path_str p)) ;;
      main_loop env rest out_dir
  end.

(** The configurations of [main], lines 170-198. *)
Definition configs : list SiteConfig :=
  [ {| slug := "cistoca";
       title := "Čistoća Rijeka – vijesti (generirano)";
       page_url := "https://cistocarijeka.hr/";
       item_selectors := ["article"; ".post"; ".news-item"; "main article"; "main .post"];
       title_selectors := ["h2 a"; "h3 a"; "h2"; "h3"; "a"];
       link_selectors := ["h2 a"; "h3 a"; "a"];
       date_selectors := ["time"; ".date"; ".post-date"] |};
    {| slug := "autotrolej";
       title := "Autotrolej – obavijesti (generirano)";
       page_url := "https://www.autotrolej.hr/";
       item_selectors := ["article"; ".post"; ".news-item"; "main article"; "main .post"; "li"];
       title_selectors := ["h2 a"; "h3 a"; "h2"; "h3"; "a"];
       link_selectors := ["h2 a"; "h3 a"; "a"];
       date_selectors := ["time"; ".date"; ".post-date"] |};
    {| slug := "rijeka-plus";
       title := "Rijeka plus – novosti (generirano)";
       page_url := "https://www.rijeka-plus.hr/";
       item_selectors := ["article"; ".post"; ".news-item"; "main article"; "main .post"];
       title_selectors := ["h2 a"; "h3 a"; "h2"; "h3"; "a"];
       link_selectors := ["h2 a"; "h3 a"; "a"];
       date_selectors := ["time"; ".date"; ".post-date"] |} ].

(** [main], lines 167-203. *)
Definition main (env : Env) : M unit := main_loop env configs ["docs"; "rss"].

(** Lines 161-164 of [build_rss]: what follows once the feed object is
    built. *)
Definition write_feed (env : Env) (cfg : SiteConfig) (out_dir : Path)
    (fg : FeedGenerator) : M Path :=
  (mkdir out_dir ;;
   let out_path := out_dir ++ [slug cfg +:+ ".xml"] in
   data <- lift (rss_str env fg) ;;
   write_bytes out_path data ;;
   ret out_path)%py.

(** ** Further vocabulary *)


(** The test of lines 69-72 on one URL: the request succeeds and the body
    holds one of the two tokens. *)
Definition rss_hit (env : Env) (u : string) : bool :=
  match http_get env u with
  | Some xml => contains "<rss" xml || contains "<feed" xml
  | None => false
  end.

(** The characters of a text that are not whitespace, in order. *)
Fixpoint keep_nonspace (s : text) : text :=
  match s with
  | [] => []
  | c :: r => if isspace c then keep_nonspace r else c :: keep_nonspace r
  end.

(** The decimal digits of a text, in order. *)
Fixpoint keep_digits (s : text) : text :=
  match s with
  | [] => []
  | c :: r => if isdecimal c then c :: keep_digits r else keep_digits r
  end.

(** A text of decimal digits. *)
Fixpoint all_digits (s : text) : bool :=
  match s with
  | [] => true
  | c :: r => isdecimal c && all_digits r
  end.

(** The words of a text, as [s.split()] gives them: the maximal runs of
    characters that are not whitespace. *)
Definition words (s : text) : list text :=
  findall_from (fun c => negb (isspace c)) [] s.

(** [" ".join(ws)] *)
Fixpoint unwords (ws : list text) : text :=
  match ws with
  | [] => []
  | w :: rest =>
      match rest with
      | [] => w
      | _ :: _ => w ++ 0x20%Z :: unwords rest
      end
  end.

(** The element [l] is what the loop of lines 112-116 leaves in [link_el]:
    the first match of the first link selector whose first match has a
    non-empty [href]; or, when there is no such selector, the first match
    of the last link selector. *)
Definition link_element (cfg : SiteConfig) (it l : Tag) : Prop :=
  (exists pre ls post,
     link_selectors cfg = pre ++ ls :: post
     /\ Forall (fun x => has_href (select_one it x) = false) pre
     /\ has_href (select_one it ls) = true
     /\ select_one it ls = Some l)
  \/ (lacks_href cfg it
      /\ exists ls, last (link_selectors cfg) = Some ls /\ select_one it ls = Some l).

(** The loop of lines 112-116 leaves [None] in [link_el]: no link selector
    yields an element with a non-empty [href], and the last one (if there
    is one) matches nothing. *)
Definition no_link_element (cfg : SiteConfig) (it : Tag) : Prop :=
  lacks_href cfg it
  /\ match last (link_selectors cfg) with
     | Some ls => select_one it ls = None
     | None => True
     end.

(** The test of line 118 holds for the candidate: it has no title element
    or no link element. *)
Definition skipped (cfg : SiteConfig) (it : Tag) : Prop :=
  lacks_title cfg it \/ no_link_element cfg it.

(** The item [x] is made from the candidate [it]: its title is the
    normalized text of the title element of [it], its link the [href] of
    the link element of [it] resolved against the page URL. *)
Definition made_from (env : Env) (cfg : SiteConfig) (it : Tag) (x : Item) : Prop :=
  exists t l,
    title_element cfg it t
    /\ link_element cfg it l
    /\ it_title x = clean (get_text t)
    /\ it_link x = urljoin env (page_url cfg) (get l "href").

(** What becomes of a candidate: it is skipped at line 119, or an item is
    made from it. *)
Definition outcome (env : Env) (cfg : SiteConfig) (it : Tag) (r : option Item) : Prop :=
  match r with
  | None => skipped cfg it
  | Some x => made_from env cfg it x
  end.

(** The items of a list of outcomes, in order. *)
Fixpoint somes {A : Type} (l : list (option A)) : list A :=
  match l with
  | [] => []
  | Some x :: r => x :: somes r
  | None :: r => somes r
  end.

(** Two environments that answer the request for [url] alike and have the
    same parser, resolver and clock; they may differ on every other URL and
    in the serializer. *)
Definition same_page (env1 env2 : Env) (url : string) : Prop :=
  http_get env1 url = http_get env2 url
  /\ (forall html, BeautifulSoup env1 html = BeautifulSoup env2 html)
  /\ (forall b u, urljoin_rfc env1 b u = urljoin_rfc env2 b u)
  /\ (forall k, utcnow env1 k = utcnow env2 k).

(** A slug that is a file name: it holds no [/], so that pathlib takes
    [slug + ".xml"] as one component. *)
Definition token (s : string) : bool := negb (contains "/" s).

(** What a run may do to the file system when it is allowed to write [p]
    only: directories are only added, and every file but [p] is as it was. *)
Definition fs_grows (p : Path) (w w' : World) : Prop :=
  dirs w ⊆ dirs w'
  /\ forall q, q <> p -> files w' !! q = files w !! q.

(** ** More sample pages *)

Module Sample2.

(** A second site on the server of [Sample]. *)
Definition sport : SiteConfig :=
  {| slug := "sport";
     title := "Sport (generirano)";
     page_url := "https://example.hr/sport/";
     item_selectors := ["article"];
     title_selectors := ["h2 a"];
     link_selectors := ["h2 a"];
     date_selectors := ["time"] |}.

(** A server that answers the two page URLs, and [/rss.xml] with a feed. *)
Definition server (soup : Tag) : Env :=
  {| http_get := fun url =>
       if String.eqb url Sample.base then Some "<html>"
       else if String.eqb url "https://example.hr/sport/" then Some "<html>"
       else if String.eqb url "https://example.hr/rss.xml" then Some "<rss version=2.0>"
       else None;
     BeautifulSoup := fun _ => soup;
     urljoin_rfc := fun _ url =>
       if String.prefix "https://" url then url else "https://example.hr" +:+ url;
     utcnow := Sample.clock;
     rss_str := fun fg => Ok ("<rss>" +:+ match fg_title fg with Some t => t | None => "" end
                              +:+ "</rss>") |}.

(** A server like [Sample.site] whose serializer fails. *)
Definition broken_serializer (soup : Tag) : Env :=
  {| http_get := http_get (Sample.site soup);
     BeautifulSoup := BeautifulSoup (Sample.site soup);
     urljoin_rfc := urljoin_rfc (Sample.site soup);
     utcnow := utcnow (Sample.site soup);
     rss_str := fun _ => Raise (ValueError "Required fields not set") |}.

(** An article that starts with a linked picture and whose headline
    holds an anchor without [href]. *)
Definition article_two_links : Tag :=
  Sample.node [("h2 a", [Sample.leaf "Naslov" [("name", "n1")]]);
               ("h2", [Sample.leaf "Naslov" []]);
               ("a", [Sample.leaf "slika" [("href", "/a2")];
                      Sample.leaf "Naslov" [("name", "n1")]])].

(** An article whose headline matches both title selectors of
    [Sample.cfg], with different texts. *)
Definition article_two_titles : Tag :=
  Sample.node [("h2 a", [Sample.leaf "Kratki naslov" [("href", "/a1")]]);
               ("h2", [Sample.leaf "Kratki naslov (novo)" []]);
               ("a", [Sample.leaf "Kratki naslov" [("href", "/a1")]])].

(** A server that answers the page URLs of [configs] with a page that
    parses to [soup], and resolves an absolute path against a base that is
    an origin followed by a slash. *)
Definition rijeka (soup : Tag) : Env :=
  {| http_get := fun url =>
       if existsb (fun cfg => String.eqb url (page_url cfg)) configs
       then Some "<html>" else None;
     BeautifulSoup := fun _ => soup;
     urljoin_rfc := fun base url =>
       match url with
       | String "/" r => base +:+ r
       | _ => url
       end;
     utcnow := Sample.clock;
     rss_str := fun fg => Ok ("<rss>" +:+ match fg_title fg with Some t => t | None => "" end
                              +:+ "</rss>") |}.

(** A site whose page the server does not have. *)
Definition missing : SiteConfig :=
  {| slug := "nema";
     title := "Nema (generirano)";
     page_url := "https://example.hr/nema/";
     item_selectors := ["article"];
     title_selectors := ["h2 a"];
     link_selectors := ["h2 a"];
     date_selectors := ["time"] |}.

End Sample2.

(** * Facts *)

(** ** Sanity checks of the text functions *)

Example txt_ascii : txt "A 1" = [0x41; 0x20; 0x31]%Z.
Proof. reflexivity. Qed.

Example clean_collapses :
  clean ([0x0A]%Z ++ txt "  Title" ++ [0x09; 0x0A]%Z ++ txt " 1  ") = txt "Title 1".
Proof. reflexivity. Qed.

(** A no-break space, an em space and a next-line character are
    whitespace as well. *)
Example clean_unicode_spaces :
  clean [0xA0; 0x41; 0x2003; 0x85; 0x42; 0xA0]%Z = txt "A B"
  /\ clean [0xA0]%Z = [].
Proof. split; reflexivity. Qed.

Example findall_digits_groups :
  findall_digits (txt "12.05.2024. u 10:30") = map txt ["12"; "05"; "2024"; "10"; "30"].
Proof. reflexivity. Qed.

(** Digits of another script are digits: 12.05.2024 in Arabic-Indic
    digits. *)
Example findall_digits_arabic :
  findall_digits [0x661; 0x662; 0x2E; 0x660; 0x665; 0x2E; 0x662; 0x660; 0x662; 0x664]%Z
  = [[0x661; 0x662]; [0x660; 0x665]; [0x662; 0x660; 0x662; 0x664]]%Z.
Proof. reflexivity. Qed.

Example int_reads_decimal :
  int (txt "05") = Ok 5%Z /\ int (txt "2024") = Ok 2024%Z
  /\ int [0x662; 0x660; 0x662; 0x664]%Z = Ok 2024%Z.
Proof. repeat split; reflexivity. Qed.

Example int_digit_limit :
  int (repeat 0x30%Z 4300) = Ok 0%Z
  /\ int (repeat 0x30%Z 4301) = Raise (ValueError (exceeds_limit_msg 4301)).
Proof. split; vm_compute; reflexivity. Qed.

Example make_rejects_month_13 :
  Datetime.make 2024 13 12 = Raise (ValueError "month must be in 1..12").
Proof. reflexivity. Qed.

Example make_accepts_leap_day :
  Datetime.make 2024 2 29 =
  Ok {| year := 2024; month := 2; day := 29;
        hour := 0; minute := 0; second := 0; microsecond := 0 |}.
Proof. reflexivity. Qed.

Example make_overflows :
  Datetime.make 2147483647 1 1 = Raise (ValueError "year 2147483647 is out of range")
  /\ Datetime.make 2147483648 1 1
     = Raise (OverflowError "signed integer is greater than maximum")
  /\ Datetime.make 1 13 9223372036854775808
     = Raise (OverflowError "Python int too large to convert to C long").
Proof. repeat split; reflexivity. Qed.

(** ** Whitespace normalization: auxiliary facts *)

Section CleanFacts.

Lemma isspace_space : isspace 0x20%Z = true.
Proof. reflexivity. Qed.

Lemma lstrip_left_tight s : left_tight (lstrip s) = true.
Proof.
  induction s as [|c r IH]; simpl; [reflexivity|].
  destruct (isspace c) eqn:Hc; [exact IH|].
  simpl. now rewrite Hc.
Qed.

Lemma left_tight_lstrip s : left_tight s = true -> lstrip s = s.
Proof.
  destruct s as [|c r]; simpl; [reflexivity|].
  now destruct (isspace c).
Qed.

Lemma rstrip_left_tight s : left_tight s = true -> left_tight (rstrip s) = true.
Proof.
  destruct s as [|c r]; simpl; [reflexivity|].
  intros Hc. destruct (rstrip r); simpl; [|exact Hc].
  destruct (isspace c) eqn:E; [discriminate|].
  simpl. now rewrite E.
Qed.

Lemma sub_spaces_left_tight s :
  left_tight s = true -> left_tight (sub_spaces false s) = true.
Proof.
  destruct s as [|c r]; simpl; [reflexivity|].
  destruct (isspace c) eqn:Hc; [discriminate|].
  simpl. now rewrite Hc.
Qed.

Lemma rstrip_idem s : rstrip (rstrip s) = rstrip s.
Proof.
  induction s as [|c r IH]; simpl; [reflexivity|].
  destruct (rstrip r) as [|c' r'] eqn:Hr.
  - destruct (isspace c) eqn:Hc; simpl; [reflexivity|]. now rewrite Hc.
  - change (rstrip (c :: c' :: r'))
      with (match rstrip (c' :: r') with
            | [] => if isspace c then [] else [c]
            | x => c :: x
            end).
    now rewrite IH.
Qed.

(** Replacing the whitespace runs of a text leaves nothing only when the
    text is all whitespace. *)
Lemma sub_spaces_empty s b : sub_spaces b s = [] -> rstrip s = [].
Proof.
  revert b. induction s as [|c r IH]; intros b; simpl; [reflexivity|].
  destruct (isspace c) eqn:Hc; [|discriminate].
  destruct b; [|discriminate].
  intros H. now rewrite (IH _ H).
Qed.

Lemma rstrip_cons_fixed c x :
  rstrip x = x -> x <> [] -> rstrip (c :: x) = c :: x.
Proof.
  intros Hx Hne. simpl. rewrite Hx. destruct x; [contradiction|reflexivity].
Qed.

Lemma sub_spaces_right_tight s :
  rstrip s = s -> forall b, rstrip (sub_spaces b s) = sub_spaces b s.
Proof.
  induction s as [|c r IH]; intros Hs b; [reflexivity|].
  simpl in Hs.
  destruct (rstrip r) as [|c' r'] eqn:Hr.
  - (* [r] is empty and [c] is not whitespace *)
    destruct (isspace c) eqn:Hc; [discriminate|].
    injection Hs as Hs. subst r. simpl. rewrite Hc. simpl. now rewrite Hc.
  - injection Hs as Hs. subst r.
    assert (Hfix : rstrip (c' :: r') = c' :: r') by exact Hr.
    assert (Hne : forall b', sub_spaces b' (c' :: r') <> []).
    { intros b' E. apply sub_spaces_empty in E. rewrite Hfix in E. discriminate. }
    change (sub_spaces b (c :: c' :: r'))
      with (if isspace c
            then (if b then sub_spaces true (c' :: r')
                  else 0x20%Z :: (sub_spaces true (c' :: r')))
            else c :: (sub_spaces false (c' :: r'))).
    destruct (isspace c); [destruct b|].
    + now apply IH.
    + apply rstrip_cons_fixed; [now apply IH | apply Hne].
    + apply rstrip_cons_fixed; [now apply IH | apply Hne].
Qed.

Lemma sub_spaces_idem s : forall b, sub_spaces b (sub_spaces b s) = sub_spaces b s.
Proof.
  induction s as [|c r IH]; intros b; simpl; [reflexivity|].
  destruct (isspace c) eqn:Hc.
  - destruct b; [apply IH|].
    simpl. now rewrite IH.
  - simpl. rewrite Hc. now rewrite IH.
Qed.

Lemma strip_clean s : strip (clean s) = clean s.
Proof.
  unfold clean, strip at 1.
  rewrite left_tight_lstrip.
  - apply sub_spaces_right_tight. unfold strip. apply rstrip_idem.
  - apply sub_spaces_left_tight. unfold strip.
    apply rstrip_left_tight, lstrip_left_tight.
Qed.

End CleanFacts.

(** ** Worlds and computations *)

Local Open Scope py_scope.

Lemma advance_advance evs1 k1 evs2 k2 w :
  advance evs2 k2 (advance evs1 k1 w) = advance (evs1 ++ evs2) (k1 + k2) w.
Proof.
  unfold advance; simpl. f_equal.
  - now rewrite <- app_assoc.
  - lia.
Qed.

Lemma advance_nothing w : advance [] 0 w = w.
Proof.
  destruct w; unfold advance; simpl. f_equal.
  - apply app_nil_r.
  - lia.
Qed.

Lemma advance_fs evs k w :
  dirs (advance evs k w) = dirs w /\ files (advance evs k w) = files w.
Proof. split; reflexivity. Qed.

Lemma selects_of_app evs1 evs2 :
  selects_of (evs1 ++ evs2) = selects_of evs1 ++ selects_of evs2.
Proof.
  induction evs1 as [|e r IH]; simpl; [reflexivity|].
  destruct e; simpl; rewrite IH; reflexivity.
Qed.

Lemma selects_of_none evs :
  Forall (fun e => ~ is_select e) evs -> selects_of evs = [].
Proof.
  induction 1 as [|e r He _ IH]; simpl; [reflexivity|].
  destruct e; simpl in *; try exact IH. now destruct He.
Qed.

Lemma selects_of_map soup sels :
  selects_of (map (Select soup) sels) = sels.
Proof.
  induction sels as [|s r IH]; simpl; [reflexivity|]. now rewrite IH.
Qed.

Section Effects.

Context {A B : Type}.
Variable P : Event -> Prop.

Lemma effects_ret (a : A) : effects P (ret a).
Proof.
  intros w. exists [], 0%nat. split; [|constructor].
  simpl. symmetry. apply advance_nothing.
Qed.

Lemma effects_raise (e : Exn) : effects P (@raise A e).
Proof.
  intros w. exists [], 0%nat. split; [|constructor].
  simpl. symmetry. apply advance_nothing.
Qed.

Lemma effects_lift (r : Result A) : effects P (lift r).
Proof.
  intros w. exists [], 0%nat. split; [|constructor].
  simpl. symmetry. apply advance_nothing.
Qed.

Lemma effects_bind (m : M A) (k : A -> M B) :
  effects P m -> (forall a, effects P (k a)) -> effects P (bind m k).
Proof.
  intros Hm Hk w. unfold bind.
  destruct (Hm w) as (evs1 & k1 & Hw & HP1).
  destruct (m w) as [[a|e] w1]; simpl in Hw; subst w1.
  - destruct (Hk a (advance evs1 k1 w)) as (evs2 & k2 & Hw2 & HP2).
    exists (evs1 ++ evs2), (k1 + k2)%nat. split.
    + rewrite Hw2. apply advance_advance.
    + apply Forall_app. now split.
  - exists evs1, k1. now split.
Qed.

Lemma effects_try (m : M A) (h : Exn -> M A) :
  effects P m -> (forall e, effects P (h e)) -> effects P (try_except m h).
Proof.
  intros Hm Hh w. unfold try_except.
  destruct (Hm w) as (evs1 & k1 & Hw & HP1).
  destruct (m w) as [[a|e] w1]; simpl in Hw; subst w1.
  - exists evs1, k1. now split.
  - destruct (Hh e (advance evs1 k1 w)) as (evs2 & k2 & Hw2 & HP2).
    exists (evs1 ++ evs2), (k1 + k2)%nat. split.
    + rewrite Hw2. apply advance_advance.
    + apply Forall_app. now split.
Qed.

Lemma effects_mono (Q : Event -> Prop) (m : M A) :
  (forall e, P e -> Q e) -> effects P m -> effects Q m.
Proof.
  intros HPQ Hm w. destruct (Hm w) as (evs & k & Hw & HP).
  exists evs, k. split; [exact Hw|].
  eapply Forall_impl; [exact HP|exact HPQ].
Qed.

Lemma logs_effects (m : M A) (a : A) (evs : list Event) :
  logs m a evs -> Forall P evs -> effects P m.
Proof.
  intros Hm HP w. exists evs, 0%nat. rewrite (Hm w). now split.
Qed.

Lemma logs_bind (m : M A) (k : A -> M B) a b evs1 evs2 :
  logs m a evs1 -> logs (k a) b evs2 -> logs (bind m k) b (evs1 ++ evs2).
Proof.
  intros Hm Hk w. unfold bind. rewrite (Hm w), (Hk (advance evs1 0 w)).
  now rewrite advance_advance.
Qed.

End Effects.

Create HintDb effects_db.
#[local] Hint Resolve effects_ret effects_raise effects_lift effects_bind effects_try
  : effects_db.

Lemma effects_emit (P : Event -> Prop) (e : Event) : P e -> effects P (emit e).
Proof.
  intros He w. exists [e], 0%nat. split; [reflexivity|].
  constructor; [exact He|constructor].
Qed.

Lemma logs_ret {A : Type} (a : A) : logs (ret a) a [].
Proof. intros w. unfold ret. now rewrite advance_nothing. Qed.

Lemma logs_emit (e : Event) : logs (emit e) tt [e].
Proof. intros w. reflexivity. Qed.

(** An emitted event in front of a computation that logs. *)
Lemma logs_emit_then {A : Type} (e : Event) (m : M A) a evs :
  logs m a evs -> logs (emit e ;; m) a (e :: evs).
Proof.
  intros Hm. change (e :: evs) with ([e] ++ evs).
  eapply logs_bind; [apply logs_emit | exact Hm].
Qed.

(** ** The steps of [scrape_items] *)

Section ProgramFacts.

Variable env : Env.

Lemma fetch_ok url text :
  http_get env url = Some text -> logs (fetch env url) text [Get url].
Proof. intros H w. unfold fetch, bind, emit. now rewrite H. Qed.

Lemma fetch_fail url :
  http_get env url = None ->
  forall w, fetch env url w = (Raise (RequestException url), advance [Get url] 0 w).
Proof. intros H w. unfold fetch, bind, emit. now rewrite H. Qed.

Lemma find_existing_rss_logs html base_url :
  exists r, logs (find_existing_rss env html base_url) r
                 [SelectOne (BeautifulSoup env html) rss_link_selector].
Proof.
  unfold find_existing_rss.
  destruct (has_href (select_one (BeautifulSoup env html) rss_link_selector));
    eexists; apply logs_emit_then, logs_ret.
Qed.

(** Each endpoint is requested and the failures are swallowed: the loop
    always returns. *)
Lemma try_fetch_rss_logs urls :
  exists r evs, logs (try_fetch_rss env urls) r evs /\ Forall is_get evs.
Proof.
  induction urls as [|u rest (r & evs & Hrest & Hget)].
  - exists None, []. split; [apply logs_ret|constructor].
  - destruct (http_get env u) as [xml|] eqn:Hu.
    + destruct (contains "<rss" xml || contains "<feed" xml) eqn:Hhit.
      * exists (Some u), [Get u]. split; [|repeat constructor].
        intros w. simpl. unfold bind, try_except, fetch, bind, emit.
        rewrite Hu. simpl. rewrite Hhit. reflexivity.
      * exists r, (Get u :: evs). split; [|constructor; [exact I|exact Hget]].
        intros w. simpl. unfold bind, try_except, fetch, bind, emit.
        rewrite Hu. simpl. rewrite Hhit.
        rewrite (Hrest (advance [Get u] 0 w)). now rewrite advance_advance.
    + exists r, (Get u :: evs). split; [|constructor; [exact I|exact Hget]].
      intros w. simpl. unfold bind, try_except, fetch, bind, emit.
      rewrite Hu. simpl.
      rewrite (Hrest (advance [Get u] 0 w)). now rewrite advance_advance.
Qed.

Lemma print_if_logs soup (b : bool) line :
  exists evs, logs (if b then emit (Print line) else ret tt) tt evs
              /\ Forall (is_probe soup) evs.
Proof.
  destruct b.
  - exists [Print line]. split; [apply logs_emit|repeat constructor].
  - exists []. split; [apply logs_ret|constructor].
Qed.

(** The informational checks never raise and never change the outcome:
    they return after requests, one query of the document and prints. *)
Lemma probe_logs cfg html :
  exists evs, logs (probe env cfg html) tt evs
              /\ Forall (is_probe (BeautifulSoup env html)) evs.
Proof.
  set (soup := BeautifulSoup env html).
  destruct (find_existing_rss_logs html (page_url cfg)) as (r & Hr).
  destruct (try_fetch_rss_logs (guess_common_rss_endpoints env (page_url cfg)))
    as (g & evs & Hg & Hget).
  destruct (print_if_logs soup (truthy r)
              ("[" +:+ slug cfg +:+ "] Found RSS in head: "
               +:+ match r with Some u => u | None => "" end)) as (e1 & H1 & P1).
  destruct (print_if_logs soup (truthy g)
              ("[" +:+ slug cfg +:+ "] Guessed RSS endpoint works: "
               +:+ match g with Some u => u | None => "" end)) as (e2 & H2 & P2).
  exists ([SelectOne soup rss_link_selector] ++ e1 ++ evs ++ e2). split.
  - unfold probe.
    eapply logs_bind; [exact Hr|].
    eapply logs_bind; [exact H1|].
    eapply logs_bind; [exact Hg|exact H2].
  - repeat apply Forall_app_2; auto.
    + repeat constructor.
    + eapply Forall_impl; [exact Hget|]. intros [] He; simpl in *; tauto.
Qed.

Lemma container_loop_none soup sels :
  Forall (fun sel => select soup sel = []) sels ->
  logs (container_loop soup sels) None (map (Select soup) sels).
Proof.
  induction 1 as [|sel rest Hsel _ IH]; simpl; [apply logs_ret|].
  apply logs_emit_then. now rewrite Hsel.
Qed.

Lemma container_loop_first soup sels pre s post :
  first_match soup sels pre s post ->
  logs (container_loop soup sels) (Some (select soup s))
       (map (Select soup) (pre ++ [s])).
Proof.
  intros (-> & Hpre & Hs).
  induction Hpre as [|sel rest Hsel _ IH]; simpl.
  - apply logs_emit_then.
    destruct (select soup s); [contradiction|apply logs_ret].
  - apply logs_emit_then. now rewrite Hsel.
Qed.

Lemma find_container_none cfg soup :
  Forall (fun sel => select soup sel = []) (item_selectors cfg) ->
  forall w, find_container cfg soup w
            = (Raise (RuntimeError (no_container_msg cfg)),
               advance (map (Select soup) (item_selectors cfg)) 0 w).
Proof.
  intros H w. unfold find_container, bind.
  now rewrite (container_loop_none soup _ H w).
Qed.

Lemma find_container_first cfg soup pre s post :
  first_match soup (item_selectors cfg) pre s post ->
  logs (find_container cfg soup) (select soup s) (map (Select soup) (pre ++ [s])).
Proof.
  intros H w. unfold find_container, bind.
  rewrite (container_loop_first soup _ pre s post H w).
  destruct H as (_ & _ & Hs).
  destruct (select soup s); [contradiction|reflexivity].
Qed.

(** Either no selector matches, or there is a first one that does. *)
Lemma first_match_or_none soup sels :
  Forall (fun sel => select soup sel = []) sels
  \/ exists pre s post, first_match soup sels pre s post.
Proof.
  induction sels as [|sel rest [IH|(pre & s & post & -> & Hpre & Hs)]].
  - left. constructor.
  - destruct (select soup sel) eqn:Hsel.
    + left. now constructor.
    + right. exists [], sel, rest. repeat split; [constructor|].
      rewrite Hsel. discriminate.
  - destruct (select soup sel) eqn:Hsel.
    + right. exists (sel :: pre), s, post. repeat split; [|exact Hs].
      now constructor.
    + right. exists [], sel, (pre ++ s :: post). repeat split; [constructor|].
      rewrite Hsel. discriminate.
Qed.

(** The first match is unique. *)
Lemma first_match_unique soup sels pre s post pre' s' post' :
  first_match soup sels pre s post ->
  first_match soup sels pre' s' post' ->
  pre = pre' /\ s = s' /\ post = post'.
Proof.
  intros (-> & Hpre & Hs) (E & Hpre' & Hs').
  revert pre' E Hpre'.
  induction Hpre as [|x r Hx _ IH]; intros pre' E Hpre'.
  - destruct pre' as [|y r']; simpl in E.
    + injection E as <- <-. auto.
    + injection E as <- _. inversion Hpre'; subst. contradiction.
  - destruct pre' as [|y r']; simpl in E.
    + injection E as <- _. contradiction.
    + injection E as <- E. inversion Hpre'; subst.
      destruct (IH r' E) as (-> & -> & ->); auto.
Qed.

(** *** One candidate *)

Lemma title_loop_logs it sels :
  exists v evs,
    logs (title_loop it sels None) v evs
    /\ Forall (queries [it]) evs
    /\ match v with
       | Some t => exists pre ts post,
                     sels = pre ++ ts :: post
                     /\ Forall (fun x => select_one it x = None) pre
                     /\ select_one it ts = Some t
       | None => Forall (fun ts => select_one it ts = None) sels
       end.
Proof.
  induction sels as [|ts rest (v & evs & Hlog & Hq & Hv)].
  - exists None, []. repeat split; [apply logs_ret|constructor|constructor].
  - destruct (select_one it ts) as [t|] eqn:Hts.
    + exists (Some t), [SelectOne it ts]. repeat split.
      * simpl. apply logs_emit_then. rewrite Hts. apply logs_ret.
      * repeat constructor.
      * exists [], ts, rest. repeat split; [constructor|exact Hts].
    + exists v, (SelectOne it ts :: evs). repeat split.
      * simpl. apply logs_emit_then. rewrite Hts. exact Hlog.
      * constructor; [now left|exact Hq].
      * destruct v as [t|].
        -- destruct Hv as (pre & ts' & post & -> & Hpre & Ht).
           exists (ts :: pre), ts', post. repeat split; [now constructor|exact Ht].
        -- now constructor.
Qed.

Lemma title_element_in cfg it t :
  title_element cfg it t ->
  exists ts, In ts (title_selectors cfg) /\ select_one it ts = Some t.
Proof.
  intros (pre & ts & post & E & _ & Hts). exists ts. split; [|exact Hts].
  rewrite E. apply in_elt.
Qed.

Lemma titled_first_from cfg it x : titled_first cfg it x -> titled_from cfg it x.
Proof.
  intros (t & Ht & Hx). destruct (title_element_in cfg it t Ht) as (ts & Hin & Hts).
  now exists ts, t.
Qed.

Lemma has_href_some o : has_href o = true -> o <> None.
Proof. now destruct o. Qed.

Lemma link_loop_logs it sels :
  forall acc,
  exists v evs,
    logs (link_loop it sels acc) v evs
    /\ Forall (queries [it]) evs
    /\ (v = None -> Forall (fun ls => has_href (select_one it ls) = false) sels)
    /\ (acc = None -> Forall (fun ls => select_one it ls = None) sels -> v = None).
Proof.
  induction sels as [|ls rest IH]; intros acc.
  - exists acc, []. repeat split; [apply logs_ret|constructor|constructor|auto].
  - destruct (has_href (select_one it ls)) eqn:Hls.
    + exists (select_one it ls), [SelectOne it ls]. repeat split.
      * simpl. apply logs_emit_then. rewrite Hls. apply logs_ret.
      * repeat constructor.
      * intros E. now apply has_href_some in Hls.
      * intros _ Hall. inversion Hall; subst. now apply has_href_some in Hls.
    + destruct (IH (select_one it ls)) as (v & evs & Hlog & Hq & Hnone & Hlack).
      exists v, (SelectOne it ls :: evs). repeat split.
      * simpl. apply logs_emit_then. rewrite Hls. exact Hlog.
      * constructor; [now left|exact Hq].
      * intros E. constructor; [exact Hls|now apply Hnone].
      * intros _ Hall. inversion Hall; subst. now apply Hlack.
Qed.

Lemma as_c_int_raises v e : as_c_int v = Raise e -> exists msg, e = OverflowError msg.
Proof.
  unfold as_c_int.
  repeat match goal with |- context [if ?b then _ else _] => destruct b end;
    intros E; try discriminate; injection E as <-; eauto.
Qed.


Lemma as_c_int_ok v x : as_c_int v = Ok x -> (- c_int_max - 1 <= v <= c_int_max)%Z.
Proof.
  unfold as_c_int.
  destruct (_ || _); [discriminate|].
  destruct (c_int_max <? v)%Z eqn:E3; [discriminate|].
  destruct (v <? - c_int_max - 1)%Z eqn:E4; [discriminate|].
  apply Z.ltb_ge in E3, E4. lia.
Qed.

Lemma check_date_raises y m d e :
  check_date y m d = Raise e -> exists msg, e = ValueError msg.
Proof.
  unfold check_date.
  repeat match goal with |- context [if ?b then _ else _] => destruct b end;
    intros E; try discriminate; injection E as <-; eauto.
Qed.

Lemma make_raises y m d e : Datetime.make y m d = Raise e -> date_error e.
Proof.
  unfold Datetime.make.
  destruct (as_c_int y) as [?|e1] eqn:Ey.
  2:{ intros E. injection E as <-. now destruct (as_c_int_raises _ _ Ey) as (msg & ->). }
  destruct (as_c_int m) as [?|e2] eqn:Em.
  2:{ intros E. injection E as <-. now destruct (as_c_int_raises _ _ Em) as (msg & ->). }
  destruct (as_c_int d) as [?|e3] eqn:Ed.
  2:{ intros E. injection E as <-. now destruct (as_c_int_raises _ _ Ed) as (msg & ->). }
  intros E. now destruct (check_date_raises _ _ _ _ E) as (msg & ->).
Qed.




Lemma int_raises s e : int s = Raise e -> exists msg, e = ValueError msg.
Proof.
  unfold int. destruct (_ <? _)%Z.
  - intros E. injection E as <-. eauto.
  - destruct (digits_value s); [discriminate|]. intros E. injection E as <-. eauto.
Qed.

Lemma date_of_raises p0 p1 p2 e : date_of p0 p1 p2 = Raise e -> date_error e.
Proof.
  unfold date_of.
  destruct (int p0) as [d|e0] eqn:E0.
  2:{ intros E. injection E as <-. now destruct (int_raises _ _ E0) as (msg & ->). }
  destruct (int p1) as [m|e1] eqn:E1.
  2:{ intros E. injection E as <-. now destruct (int_raises _ _ E1) as (msg & ->). }
  destruct (int p2) as [y|e2] eqn:E2.
  2:{ intros E. injection E as <-. now destruct (int_raises _ _ E2) as (msg & ->). }
  apply make_raises.
Qed.

(** Reading the date never touches the world. *)
Lemma parse_date_run raw dt w :
  parse_date raw dt w
  = (match findall_digits raw with
     | p0 :: p1 :: p2 :: _ => date_of p0 p1 p2
     | _ => Ok dt
     end, w).
Proof.
  unfold parse_date.
  destruct (findall_digits raw) as [|p0 [|p1 [|p2 rest]]]; reflexivity.
Qed.

Lemma date_loop_first it pre ds post d_el dt :
  Forall (fun x => select_one it x = None) pre ->
  select_one it ds = Some d_el ->
  forall w,
    date_loop it (pre ++ ds :: post) dt w
    = parse_date (clean (get_text d_el)) dt
        (advance (map (SelectOne it) (pre ++ [ds])) 0 w).
Proof.
  intros Hpre Hds.
  induction Hpre as [|x r Hx _ IH]; intros w; simpl.
  - unfold bind, emit. now rewrite Hds.
  - unfold bind, emit. rewrite Hx. rewrite IH.
    now rewrite advance_advance.
Qed.

Lemma date_loop_none it sels dt :
  Forall (fun x => select_one it x = None) sels ->
  logs (date_loop it sels dt) dt (map (SelectOne it) sels).
Proof.
  induction 1 as [|x r Hx _ IH]; simpl; [apply logs_ret|].
  apply logs_emit_then. now rewrite Hx.
Qed.

(** The date loop ends in one of two ways. *)
Lemma date_loop_cases it sels :
  Forall (fun x => select_one it x = None) sels
  \/ exists pre ds post d_el,
       sels = pre ++ ds :: post
       /\ Forall (fun x => select_one it x = None) pre
       /\ select_one it ds = Some d_el.
Proof.
  induction sels as [|x r [IH|(pre & ds & post & d_el & -> & Hpre & Hds)]].
  - left. constructor.
  - destruct (select_one it x) as [el|] eqn:Hx.
    + right. exists [], x, r, el. repeat split; [constructor|exact Hx].
    + left. now constructor.
  - destruct (select_one it x) as [el|] eqn:Hx.
    + right. exists [], x, (pre ++ ds :: post), el. repeat split; [constructor|exact Hx].
    + right. exists (x :: pre), ds, post, d_el. repeat split; [|exact Hds].
      now constructor.
Qed.

Lemma queries_map it sels : Forall (queries [it]) (map (SelectOne it) sels).
Proof.
  induction sels as [|x r IH]; simpl; constructor; [now left|exact IH].
Qed.

(** A run of the date loop: it queries the candidate only, leaves the clock
    alone, and raises nothing but the errors of [int] and [datetime]. *)
Lemma date_loop_run it sels dt w :
  exists r evs,
    date_loop it sels dt w = (r, advance evs 0 w)
    /\ Forall (queries [it]) evs
    /\ (forall e, r = Raise e -> date_error e).
Proof.
  destruct (date_loop_cases it sels)
    as [Hall|(pre & ds & post & d_el & -> & Hpre & Hds)].
  - exists (Ok dt), (map (SelectOne it) sels). repeat split.
    + apply (date_loop_none it sels dt Hall).
    + apply queries_map.
    + discriminate.
  - eexists _, (map (SelectOne it) (pre ++ [ds])). repeat split.
    + rewrite (date_loop_first it pre ds post d_el dt Hpre Hds).
      apply parse_date_run.
    + apply queries_map.
    + intros e.
      destruct (findall_digits (clean (get_text d_el))) as [|p0 [|p1 [|p2 rest]]];
        try discriminate.
      apply date_of_raises.
Qed.

Lemma date_loop_effects it sels dt : effects (queries [it]) (date_loop it sels dt).
Proof.
  intros w. destruct (date_loop_run it sels dt w) as (r & evs & Hrun & Hq & _).
  exists evs, 0%nat. now rewrite Hrun.
Qed.

Lemma now_effects (P : Event -> Prop) : effects P (now env).
Proof. intros w. exists [], 1%nat. split; [reflexivity|constructor]. Qed.

#[local] Hint Resolve now_effects date_loop_effects : effects_db.

Lemma finish_item_effects cfg it title_el link_el :
  effects (queries [it]) (finish_item env cfg it title_el link_el).
Proof.
  destruct title_el as [t|], link_el as [l|]; simpl; eauto 6 with effects_db.
Qed.

(** Without a title element or without a link element nothing happens. *)
Lemma finish_item_skip cfg it title_el link_el :
  title_el = None \/ link_el = None ->
  logs (finish_item env cfg it title_el link_el) None [].
Proof.
  intros [-> | ->]; [|destruct title_el]; apply logs_ret.
Qed.

(** With both, the clock is read once, the date loop runs, and an item
    comes out unless the loop raises. *)
Lemma finish_item_keep cfg it t l w :
  let run := date_loop it (date_selectors cfg) (utcnow env (ticks w)) (advance [] 1 w) in
  finish_item env cfg it (Some t) (Some l) w
  = (match fst run with
     | Ok dt => Ok (Some {| it_title := clean (get_text t);
                            it_link := urljoin env (page_url cfg) (get l "href");
                            it_date := dt |})
     | Raise e => Raise e
     end, snd run).
Proof.
  simpl. unfold bind, now.
  destruct (date_loop it (date_selectors cfg) (utcnow env (ticks w)) (advance [] 1 w))
    as [[dt|e] w1]; reflexivity.
Qed.

(** The two selector loops of a candidate do not depend on the world: they
    set [title_el] and [link_el] and log their queries. *)
Lemma scrape_item_run cfg it :
  exists title_el link_el evs,
    Forall (queries [it]) evs
    /\ (forall w, scrape_item env cfg it w
                  = finish_item env cfg it title_el link_el (advance evs 0 w))
    /\ match title_el with
       | Some t => title_element cfg it t
       | None => lacks_title cfg it
       end
    /\ (link_el = None -> lacks_href cfg it)
    /\ (lacks_link cfg it -> link_el = None).
Proof.
  destruct (title_loop_logs it (title_selectors cfg)) as (tv & e1 & Ht & Q1 & Htv).
  destruct (link_loop_logs it (link_selectors cfg) None)
    as (lv & e2 & Hl & Q2 & Hnone & Hlack).
  exists tv, lv, (e1 ++ e2). repeat split.
  - apply Forall_app. now split.
  - intros w. unfold scrape_item, bind. rewrite (Ht w), (Hl (advance e1 0 w)).
    now rewrite advance_advance.
  - exact Htv.
  - exact Hnone.
  - intros H. now apply Hlack.
Qed.

Lemma scrape_item_effects cfg it : effects (queries [it]) (scrape_item env cfg it).
Proof.
  destruct (scrape_item_run cfg it) as (tv & lv & evs & Hq & Hrun & _).
  intros w. rewrite Hrun.
  destruct (finish_item_effects cfg it tv lv (advance evs 0 w)) as (evs2 & k & Hw & Hq2).
  exists (evs ++ evs2), k. split.
  - rewrite Hw. now rewrite advance_advance.
  - apply Forall_app. now split.
Qed.

(** A candidate is either skipped in every world, and then it has no title
    element or no link with an [href]; or it is skipped in none, and then
    it gives an item titled from it, unless the date raises. *)
Lemma scrape_item_cases cfg it :
  (dropped env cfg it /\ (lacks_title cfg it \/ lacks_href cfg it))
  \/ (forall w, match fst (scrape_item env cfg it w) with
                | Ok (Some x) => titled_first cfg it x
                | Ok None => False
                | Raise e => date_error e
                end).
Proof.
  destruct (scrape_item_run cfg it) as (tv & lv & evs & _ & Hrun & Htv & Hnone & _).
  destruct tv as [t|]; [destruct lv as [l|]|].
  - right. intros w. rewrite Hrun, finish_item_keep. simpl.
    destruct (date_loop_run it (date_selectors cfg)
                (utcnow env (ticks w + 0)) (advance [] 1 (advance evs 0 w)))
      as (r & evs2 & Hd & _ & Hr).
    rewrite Hd. simpl. destruct r as [dt|e]; [|now apply Hr].
    now exists t.
  - left. split; [|right; now apply Hnone].
    intros w. rewrite Hrun. reflexivity.
  - left. split; [|now left].
    intros w. rewrite Hrun. reflexivity.
Qed.

(** A candidate below which no title selector matches, or no link selector
    matches, is skipped. *)
Lemma lacks_dropped cfg it :
  lacks_title cfg it \/ lacks_link cfg it -> dropped env cfg it.
Proof.
  intros H.
  destruct (scrape_item_run cfg it) as (tv & lv & evs & _ & Hrun & Htv & _ & Hlack).
  assert (Hskip : tv = None \/ lv = None).
  { destruct H as [H|H]; [left|right; now apply Hlack].
    destruct tv as [t|]; [|reflexivity].
    destruct (title_element_in cfg it t Htv) as (ts & Hin & Hts).
    unfold lacks_title in H. rewrite Forall_forall in H.
    apply list_elem_of_In in Hin.
    specialize (H ts Hin). congruence. }
  intros w. rewrite Hrun. now rewrite (finish_item_skip cfg it tv lv Hskip).
Qed.

(** A skipped candidate has no title element, or no link selector gives it
    an element with an [href]. *)
Lemma dropped_lacks cfg it :
  dropped env cfg it -> lacks_title cfg it \/ lacks_href cfg it.
Proof.
  intros Hdrop.
  destruct (scrape_item_cases cfg it) as [(_ & H)|Hkeep]; [exact H|].
  set (w := {| trace := []; ticks := 0; dirs := ∅; files := ∅ |}).
  specialize (Hkeep w). now rewrite (Hdrop w) in Hkeep.
Qed.

(** *** All candidates *)

Lemma queries_incl els els' e :
  (forall el, In el els -> In el els') -> queries els e -> queries els' e.
Proof. intros H. destruct e; simpl; auto. Qed.

Lemma items_loop_effects cfg cands :
  forall items, effects (queries cands) (items_loop env cfg cands items).
Proof.
  induction cands as [|it rest IH]; intros items; simpl.
  - apply effects_ret.
  - apply effects_bind.
    + eapply effects_mono; [|apply scrape_item_effects].
      intros e. apply queries_incl. intros el [<-|[]]. now left.
    + intros r. eapply effects_mono; [|apply IH].
      intros e. apply queries_incl. intros el Hel. now right.
Qed.

Lemma items_loop_dropped cfg cands :
  Forall (dropped env cfg) cands ->
  forall items w, fst (items_loop env cfg cands items w) = Ok items.
Proof.
  induction 1 as [|it rest Hit _ IH]; intros items w; simpl; [reflexivity|].
  unfold bind. specialize (Hit w).
  destruct (scrape_item env cfg it w) as [[r|e] w1]; simpl in Hit; [|discriminate].
  injection Hit as ->. apply IH.
Qed.

(** What the loop over the candidates returns: the items it started with,
    then at most one new item per candidate, each titled from a candidate;
    nothing new only when every candidate is skipped.  It raises nothing
    but the error of a date. *)
Lemma items_loop_spec cfg cands :
  forall items w,
    match fst (items_loop env cfg cands items w) with
    | Ok out =>
        exists new,
          out = items ++ new
          /\ (length new <= length cands)%nat
          /\ Forall (fun x => exists it, In it cands /\ titled_first cfg it x) new
          /\ (new = [] -> Forall (dropped env cfg) cands)
    | Raise e => date_error e
    end.
Proof.
  induction cands as [|it rest IH]; intros items w; simpl.
  - exists []. rewrite app_nil_r. repeat split; auto.
  - unfold bind.
    destruct (scrape_item_cases cfg it) as [(Hdrop & _)|Hkeep].
    + pose proof (Hdrop w) as Hw.
      destruct (scrape_item env cfg it w) as [[r|e] w1]; simpl in Hw; [|discriminate].
      injection Hw as ->.
      specialize (IH items w1).
      destruct (fst (items_loop env cfg rest items w1)) as [out|e]; [|exact IH].
      destruct IH as (new & -> & Hlen & Hfrom & Hnil).
      exists new. repeat split.
      * simpl. lia.
      * eapply Forall_impl; [exact Hfrom|].
        intros x (el & Hel & Hx). exists el. split; [now right|exact Hx].
      * intros E. constructor; [exact Hdrop|now apply Hnil].
    + specialize (Hkeep w).
      destruct (scrape_item env cfg it w) as [[[x|]|e] w1]; simpl in Hkeep;
        [|contradiction|exact Hkeep].
      specialize (IH (items ++ [x]) w1).
      destruct (fst (items_loop env cfg rest (items ++ [x]) w1)) as [out|e]; [|exact IH].
      destruct IH as (new & -> & Hlen & Hfrom & _).
      exists (x :: new). repeat split.
      * now rewrite <- app_assoc.
      * simpl. lia.
      * constructor.
        -- exists it. split; [now left|exact Hkeep].
        -- eapply Forall_impl; [exact Hfrom|].
           intros y (el & Hel & Hy). exists el. split; [now right|exact Hy].
      * discriminate.
Qed.

(** *** From the container to the items *)

Lemma take_30_length (found : list Tag) : (length (take 30 found) <= 30)%nat.
Proof. rewrite length_take. lia. Qed.

Lemma extract_take cfg found :
  extract env cfg (take 30 found) = extract env cfg found.
Proof. unfold extract. now rewrite take_take. Qed.

Lemma extract_effects cfg found :
  effects (queries (take 30 found)) (extract env cfg found).
Proof.
  unfold extract. apply effects_bind; [apply items_loop_effects|].
  intros [|x r]; auto with effects_db.
Qed.

(** The outcomes of [extract]: a non-empty list of at most thirty items,
    each titled from one of the first thirty candidates; the error of line
    140, exactly when every one of these candidates is skipped; or the
    error of a date. *)
Lemma extract_spec cfg found w :
  match fst (extract env cfg found w) with
  | Ok items =>
      items <> []
      /\ (length items <= 30)%nat
      /\ Forall (fun x => exists it, In it (take 30 found) /\ titled_first cfg it x) items
  | Raise e =>
      (e = RuntimeError (none_parsable_msg cfg)
       /\ Forall (dropped env cfg) (take 30 found))
      \/ date_error e
  end.
Proof.
  unfold extract, bind.
  pose proof (items_loop_spec cfg (take 30 found) [] w) as H.
  destruct (items_loop env cfg (take 30 found) [] w) as [[items|e] w1]; simpl in *.
  - destruct H as (new & -> & Hlen & Hfrom & Hnil). simpl.
    destruct new as [|x r]; simpl.
    + left. split; [reflexivity|now apply Hnil].
    + repeat split; [discriminate| |exact Hfrom].
      pose proof (take_30_length found). simpl in Hlen. lia.
  - now right.
Qed.

Lemma extract_dropped cfg found w :
  Forall (dropped env cfg) (take 30 found) ->
  fst (extract env cfg found w) = Raise (RuntimeError (none_parsable_msg cfg)).
Proof.
  intros H. unfold extract, bind.
  pose proof (items_loop_dropped cfg _ H [] w) as E.
  destruct (items_loop env cfg (take 30 found) [] w) as [[items|e] w1];
    simpl in E; [|discriminate].
  now injection E as ->.
Qed.

(** *** The whole of [scrape_items] *)

(** When the request fails, nothing else happens. *)
Lemma scrape_items_offline cfg :
  http_get env (page_url cfg) = None ->
  forall w, scrape_items env cfg w
            = (Raise (RequestException (page_url cfg)), advance [Get (page_url cfg)] 0 w).
Proof.
  intros H w. unfold scrape_items, bind. now rewrite (fetch_fail _ H w).
Qed.

(** When no item selector matches, every one of them was tried. *)
Lemma scrape_items_none cfg html :
  http_get env (page_url cfg) = Some html ->
  let soup := BeautifulSoup env html in
  Forall (fun sel => select soup sel = []) (item_selectors cfg) ->
  exists evs,
    Forall (is_probe soup) evs
    /\ forall w,
         scrape_items env cfg w
         = (Raise (RuntimeError (no_container_msg cfg)),
            advance (Get (page_url cfg) :: evs
                     ++ map (Select soup) (item_selectors cfg)) 0 w).
Proof.
  intros Hget soup Hnone.
  destruct (probe_logs cfg html) as (evs & Hprobe & Hevs).
  exists evs. split; [exact Hevs|].
  intros w. unfold scrape_items, bind.
  rewrite (fetch_ok _ _ Hget w), (Hprobe _).
  fold soup. rewrite (find_container_none cfg soup Hnone).
  now rewrite !advance_advance.
Qed.

(** When [s] is the first item selector that matches, [scrape_items] is
    [extract] on what [s] matches, after the request, the informational
    checks and the selectors up to [s]. *)
Lemma scrape_items_run cfg html pre s post :
  http_get env (page_url cfg) = Some html ->
  let soup := BeautifulSoup env html in
  first_match soup (item_selectors cfg) pre s post ->
  exists evs,
    Forall (is_probe soup) evs
    /\ forall w,
         scrape_items env cfg w
         = extract env cfg (select soup s)
             (advance (Get (page_url cfg) :: evs
                       ++ map (Select soup) (pre ++ [s])) 0 w).
Proof.
  intros Hget soup Hfirst.
  destruct (probe_logs cfg html) as (evs & Hprobe & Hevs).
  exists evs. split; [exact Hevs|].
  intros w. unfold scrape_items, bind.
  rewrite (fetch_ok _ _ Hget w), (Hprobe _).
  fold soup. rewrite (find_container_first cfg soup pre s post Hfirst).
  now rewrite !advance_advance.
Qed.

Lemma is_probe_not_fs soup e : is_probe soup e -> ~ is_fs e.
Proof. destruct e; simpl; tauto. Qed.

Lemma queries_not_fs els e : queries els e -> ~ is_fs e.
Proof. destruct e; simpl; tauto. Qed.

Lemma select_not_fs soup sels : Forall (fun e => ~ is_fs e) (map (Select soup) sels).
Proof. induction sels; simpl; constructor; auto. Qed.

(** [scrape_items] leaves the file system alone. *)
Lemma scrape_items_effects cfg : effects (fun e => ~ is_fs e) (scrape_items env cfg).
Proof.
  intros w.
  destruct (http_get env (page_url cfg)) as [html|] eqn:Hget.
  - destruct (first_match_or_none (BeautifulSoup env html) (item_selectors cfg))
      as [Hnone|(pre & s & post & Hfirst)].
    + destruct (scrape_items_none cfg html Hget Hnone) as (evs & Hevs & Hrun).
      eexists _, 0%nat. rewrite Hrun. split; [reflexivity|].
      constructor; [simpl; tauto|]. apply Forall_app. split.
      * eapply Forall_impl; [exact Hevs|]. intros e. apply is_probe_not_fs.
      * apply select_not_fs.
    + destruct (scrape_items_run cfg html pre s post Hget Hfirst) as (evs & Hevs & Hrun).
      rewrite Hrun.
      destruct (extract_effects cfg (select (BeautifulSoup env html) s)
                  (advance (Get (page_url cfg) :: evs
                            ++ map (Select (BeautifulSoup env html)) (pre ++ [s])) 0 w))
        as (evs2 & k & Hw & Hq).
      eexists _, _. rewrite Hw, advance_advance. split; [reflexivity|].
      apply Forall_app. split.
      * constructor; [simpl; tauto|]. apply Forall_app. split.
        -- eapply Forall_impl; [exact Hevs|]. intros e. apply is_probe_not_fs.
        -- apply select_not_fs.
      * eapply Forall_impl; [exact Hq|]. intros e. apply queries_not_fs.
  - eexists _, 0%nat. rewrite (scrape_items_offline cfg Hget). split; [reflexivity|].
    constructor; [simpl; tauto|constructor].
Qed.

End ProgramFacts.

(** ** The two error messages *)

Lemma append_cancel_l (a x y : string) : a +:+ x = a +:+ y -> x = y.
Proof.
  induction a as [|c a IH]; simpl; [auto|].
  intros E. injection E as E. auto.
Qed.

Lemma messages_differ cfg : none_parsable_msg cfg <> no_container_msg cfg.
Proof.
  unfold none_parsable_msg, no_container_msg. intros E.
  apply (append_cancel_l "[") in E.
  apply append_cancel_l in E. simpl in E. discriminate.
Qed.

Lemma runtime_error_inj {A : Type} (a b : string) :
  @Raise A (RuntimeError a) = Raise (RuntimeError b) -> a = b.
Proof. intros E. now injection E. Qed.

Lemma In_take {A : Type} (x : A) n l : In x (take n l) -> In x l.
Proof.
  revert n. induction l as [|y r IH]; intros [|n]; simpl; try tauto.
  intros [->|H]; [now left|right; eauto].
Qed.

Lemma is_probe_not_select soup e : is_probe soup e -> ~ is_select e.
Proof. destruct e; simpl; tauto. Qed.

Lemma queries_not_select els e : queries els e -> ~ is_select e.
Proof. destruct e; simpl; tauto. Qed.

(** ** The feed object *)

Lemma add_item_entries fg it :
  fg_entries (add_item fg it) = entry_of it :: fg_entries fg.
Proof. reflexivity. Qed.

Lemma fold_add_item_entries items :
  forall fg,
    fg_entries (fold_left add_item items fg) = rev (map entry_of items) ++ fg_entries fg.
Proof.
  induction items as [|it r IH]; intros fg; simpl; [reflexivity|].
  rewrite IH, add_item_entries. now rewrite <- app_assoc.
Qed.

(** A run of [build_rss] that succeeds leaves the serialized feed in
    [out_dir/slug.xml]. *)
Example build_rss_writes :
  let run := build_rss (Sample.site (Sample.page [Sample.article_dmy]))
                       Sample.cfg ["docs"; "rss"] Sample.w0 in
  fst run = Ok ["docs"; "rss"; "vijesti.xml"]
  /\ files (snd run) !! ["docs"; "rss"; "vijesti.xml"] = Some "<rss/>".
Proof. split; vm_compute; reflexivity. Qed.

(** * The claims *)

(** C1, where the code departs from the claim.  The claim: a candidate for
    which no link selector yields an element with a non-empty [href] is
    dropped.  The code: the candidate [article_nohref], whose only anchor
    has no [href], is kept, with the page URL as its link; the loop of
    lines 112-116 leaves the last matched element in [link_el] and line 118
    tests only that. *)
Theorem C1_item_without_href_is_kept :
  lacks_href Sample.cfg Sample.article_nohref
  /\ fst (scrape_items (Sample.site (Sample.page [Sample.article_nohref]))
                       Sample.cfg Sample.w0)
     = Ok [ {| it_title := txt "Obavijest";
               it_link := Some "https://example.hr/";
               it_date := Sample.clock 0 |} ].
Proof.
  split.
  - repeat constructor.
  - vm_compute. reflexivity.
Qed.

(** C2, where the code departs from the claim.  The claim: date extraction
    never raises.  The code: a date element that reads [2024 05 12] gives
    day 2024, a thirteenth month gives month 13, and the [ValueError] of
    the [datetime] constructor leaves [scrape_items]. *)
Theorem C2_invalid_date_raises :
  fst (scrape_items (Sample.site (Sample.page [Sample.article_ymd]))
                    Sample.cfg Sample.w0)
  = Raise (ValueError "day is out of range for month")
  /\ fst (scrape_items (Sample.site (Sample.page [Sample.article_month13]))
                       Sample.cfg Sample.w0)
     = Raise (ValueError "month must be in 1..12").
Proof. split; vm_compute; reflexivity. Qed.

(** ** Normal form of [clean] *)

Lemma clean_fixed s : clean (clean s) = clean s.
Proof.
  unfold clean at 1. rewrite strip_clean.
  unfold clean. apply sub_spaces_idem.
Qed.

Lemma sub_spaces_skips s : left_tight (sub_spaces true s) = true.
Proof.
  induction s as [|c r IH]; simpl; [reflexivity|].
  destruct (isspace c) eqn:Hc; [exact IH|].
  simpl. now rewrite Hc.
Qed.

Lemma sub_spaces_single s :
  rstrip s = s -> forall b, single_spaced (sub_spaces b s) = true.
Proof.
  induction s as [|c r IH]; intros Hs b; [reflexivity|].
  simpl in Hs.
  destruct (rstrip r) as [|c' r'] eqn:Hr.
  - destruct (isspace c) eqn:Hc; [discriminate|].
    injection Hs as Hs. subst r. simpl. rewrite Hc. simpl. now rewrite Hc.
  - injection Hs as Hs. subst r.
    assert (Hfix : rstrip (c' :: r') = c' :: r') by exact Hr.
    specialize (IH eq_refl).
    change (sub_spaces b (c :: c' :: r'))
      with (if isspace c
            then (if b then sub_spaces true (c' :: r')
                  else 0x20%Z :: (sub_spaces true (c' :: r')))
            else c :: (sub_spaces false (c' :: r'))).
    destruct (isspace c) eqn:Hc; [destruct b|].
    + apply IH.
    + pose proof (sub_spaces_skips (c' :: r')) as Hhead.
      pose proof (IH true) as Hrest.
      destruct (sub_spaces true (c' :: r')) as [|c2 r2] eqn:Hsub.
      * apply sub_spaces_empty in Hsub. rewrite Hfix in Hsub. discriminate.
      * change (single_spaced (0x20%Z :: (c2 :: r2)))
          with ((if isspace 0x20%Z then (0x20 =? 0x20)%Z && negb (isspace c2) else true)
                && single_spaced (c2 :: r2)).
        simpl in Hhead. rewrite Hhead, Hrest. reflexivity.
    + change (single_spaced (c :: (sub_spaces false (c' :: r'))))
        with ((if isspace c
               then (c =? 0x20)%Z
                    && match sub_spaces false (c' :: r') with
                       | [] => false
                       | c2 :: _ => negb (isspace c2)
                       end
               else true)
              && single_spaced (sub_spaces false (c' :: r'))).
      rewrite Hc. exact (IH false).
Qed.

Lemma clean_normalized s : normalized (clean s) = true.
Proof.
  unfold normalized. apply andb_true_intro. split.
  - unfold clean. apply sub_spaces_left_tight. unfold strip.
    apply rstrip_left_tight, lstrip_left_tight.
  - unfold clean. apply sub_spaces_single. unfold strip. apply rstrip_idem.
Qed.

Lemma keep_nonspace_lstrip s : keep_nonspace (lstrip s) = keep_nonspace s.
Proof.
  induction s as [|c r IH]; simpl; [reflexivity|].
  destruct (isspace c) eqn:Hc; [exact IH|]. simpl. now rewrite Hc.
Qed.

Lemma keep_nonspace_rstrip s : keep_nonspace (rstrip s) = keep_nonspace s.
Proof.
  induction s as [|c r IH]; simpl; [reflexivity|].
  destruct (rstrip r) as [|c' r'] eqn:Hr.
  - rewrite <- IH. simpl. destruct (isspace c) eqn:Hc; simpl; [reflexivity|].
    now rewrite Hc.
  - change (keep_nonspace (c :: c' :: r'))
      with (if isspace c then keep_nonspace (c' :: r')
            else c :: (keep_nonspace (c' :: r'))).
    now rewrite IH.
Qed.

Lemma keep_nonspace_sub_spaces s : forall b, keep_nonspace (sub_spaces b s) = keep_nonspace s.
Proof.
  induction s as [|c r IH]; intros b; simpl; [reflexivity|].
  destruct (isspace c) eqn:Hc.
  - destruct b; [apply IH|]. simpl. apply IH.
  - simpl. rewrite Hc. now rewrite IH.
Qed.

Lemma keep_nonspace_clean s : keep_nonspace (clean s) = keep_nonspace s.
Proof.
  unfold clean, strip.
  now rewrite keep_nonspace_sub_spaces, keep_nonspace_rstrip, keep_nonspace_lstrip.
Qed.

Lemma left_tight_keeps s :
  left_tight s = true -> keep_nonspace s = [] -> s = [].
Proof.
  destruct s as [|c r]; simpl; [reflexivity|].
  destruct (isspace c); [discriminate|]. intros _ E. discriminate.
Qed.

Lemma keep_nonspace_all_space s : keep_nonspace s = [] <-> all_space s = true.
Proof.
  unfold all_space. induction s as [|c r IH]; simpl; [tauto|].
  destruct (isspace c); simpl; [exact IH|]. split; discriminate.
Qed.

(** [clean] gives the empty text exactly for a text that is empty or all
    whitespace. *)
Lemma clean_empty_iff s : clean s = [] <-> all_space s = true.
Proof.
  rewrite <- keep_nonspace_all_space. split.
  - intros E. rewrite <- keep_nonspace_clean, E. reflexivity.
  - intros E. apply left_tight_keeps.
    + pose proof (clean_normalized s) as H. unfold normalized in H.
      now apply andb_prop in H.
    + now rewrite keep_nonspace_clean.
Qed.

(** C3, the claim as stated fails: an article whose headline link holds
    only blanks, or only a no-break space, passes the test of line 118,
    and its item has the empty title. *)
Lemma C3_empty_title_counterexample :
  fst (scrape_items (Sample.site (Sample.page [Sample.article_blank]))
                    Sample.cfg Sample.w0)
  = Ok [ {| it_title := [];
            it_link := Some "https://example.hr/a1";
            it_date := Sample.clock 0 |} ]
  /\ fst (scrape_items (Sample.site (Sample.page [Sample.article_nbsp]))
                       Sample.cfg Sample.w0)
     = Ok [ {| it_title := [];
               it_link := Some "https://example.hr/a1";
               it_date := Sample.clock 0 |} ].
Proof. split; vm_compute; reflexivity. Qed.

(** C3, amended: for every successful call of [scrape_items] the returned
    sequence is not empty, and with [s] the first item selector that
    matches, every item in it is made from one of the first thirty
    elements that [s] matches: its title is the whitespace-normalized text
    of the title element of that candidate (the first match of the first
    title selector that matches below it), so it is a fixed point of
    [clean]; and the title is the empty text exactly when the text of the
    title element is empty or holds nothing but whitespace. *)
Theorem C3_titles_are_normalized env cfg w items :
  fst (scrape_items env cfg w) = Ok items ->
  items <> []
  /\ exists html pre s post,
       http_get env (page_url cfg) = Some html
       /\ first_match (BeautifulSoup env html) (item_selectors cfg) pre s post
       /\ Forall (fun x =>
            exists it t,
              In it (take 30 (select (BeautifulSoup env html) s))
              /\ title_element cfg it t
              /\ it_title x = clean (get_text t)
              /\ clean (it_title x) = it_title x
              /\ normalized (it_title x) = true
              /\ (it_title x = [] <-> all_space (get_text t) = true)) items.
Proof.
  intros Hok.
  destruct (http_get env (page_url cfg)) as [html|] eqn:Hget.
  2:{ rewrite (scrape_items_offline env cfg Hget) in Hok. discriminate. }
  destruct (first_match_or_none (BeautifulSoup env html) (item_selectors cfg))
    as [Hnone|(pre & s & post & Hfirst)].
  { destruct (scrape_items_none env cfg html Hget Hnone) as (evs & _ & Hrun).
    rewrite Hrun in Hok. discriminate. }
  destruct (scrape_items_run env cfg html pre s post Hget Hfirst) as (evs & _ & Hrun).
  rewrite Hrun in Hok.
  pose proof (extract_spec env cfg (select (BeautifulSoup env html) s)
                (advance (Get (page_url cfg) :: evs
                          ++ map (Select (BeautifulSoup env html)) (pre ++ [s])) 0 w)) as H.
  rewrite Hok in H. destruct H as (Hne & _ & Hfrom).
  split; [exact Hne|].
  exists html, pre, s, post. split; [reflexivity|]. split; [exact Hfirst|].
  eapply Forall_impl; [exact Hfrom|].
  intros x (it & Hit & t & Ht & Hx).
  exists it, t. split; [exact Hit|]. split; [exact Ht|]. split; [exact Hx|].
  rewrite Hx. split; [apply clean_fixed|]. split; [apply clean_normalized|].
  apply clean_empty_iff.
Qed.

Lemma C3_titles_are_normalized_witness :
  fst (scrape_items (Sample.site (Sample.page [Sample.article_nbsp]))
                    Sample.cfg Sample.w0)
  = Ok [ {| it_title := [];
            it_link := Some "https://example.hr/a1";
            it_date := Sample.clock 0 |} ]
  /\ exists html pre s post,
       http_get (Sample.site (Sample.page [Sample.article_nbsp])) (page_url Sample.cfg)
       = Some html
       /\ first_match (BeautifulSoup (Sample.site (Sample.page [Sample.article_nbsp])) html)
                      (item_selectors Sample.cfg) pre s post
       /\ Forall (fun x =>
            exists it t,
              In it (take 30 (select (BeautifulSoup
                                        (Sample.site (Sample.page [Sample.article_nbsp]))
                                        html) s))
              /\ title_element Sample.cfg it t
              /\ it_title x = clean (get_text t)
              /\ clean (it_title x) = it_title x
              /\ normalized (it_title x) = true
              /\ (it_title x = [] <-> all_space (get_text t) = true))
            [ {| it_title := [];
                 it_link := Some "https://example.hr/a1";
                 it_date := Sample.clock 0 |} ].
Proof.
  assert (Hrun : fst (scrape_items (Sample.site (Sample.page [Sample.article_nbsp]))
                                   Sample.cfg Sample.w0)
                 = Ok [ {| it_title := [];
                           it_link := Some "https://example.hr/a1";
                           it_date := Sample.clock 0 |} ])
    by (vm_compute; reflexivity).
  split; [exact Hrun|].
  exact (proj2 (C3_titles_are_normalized (Sample.site (Sample.page [Sample.article_nbsp]))
                  Sample.cfg Sample.w0 _ Hrun)).
Defined.

(** C4: container selection is first-match-wins.  If no item selector
    matches, [scrape_items] raises the error of line 102.  If [s] is the
    first item selector that matches, the selectors passed to [select]
    during the whole call are those before [s] and [s] itself, in order, so
    the selectors after [s] are never tried; and the call is [extract] on
    what [s] matches. *)
Theorem C4_container_first_match env cfg html w :
  http_get env (page_url cfg) = Some html ->
  let soup := BeautifulSoup env html in
  (Forall (fun sel => select soup sel = []) (item_selectors cfg) ->
   fst (scrape_items env cfg w) = Raise (RuntimeError (no_container_msg cfg)))
  /\ (forall pre s post,
        first_match soup (item_selectors cfg) pre s post ->
        exists evs k w1,
          snd (scrape_items env cfg w) = advance evs k w
          /\ selects_of evs = pre ++ [s]
          /\ scrape_items env cfg w = extract env cfg (select soup s) w1).
Proof.
  intros Hget soup. split.
  - intros Hnone.
    destruct (scrape_items_none env cfg html Hget Hnone) as (evs & _ & Hrun).
    now rewrite Hrun.
  - intros pre s post Hfirst.
    destruct (scrape_items_run env cfg html pre s post Hget Hfirst) as (evs & Hevs & Hrun).
    set (w1 := advance (Get (page_url cfg) :: evs ++ map (Select soup) (pre ++ [s])) 0 w).
    destruct (extract_effects env cfg (select soup s) w1) as (evs2 & k & Hw & Hq).
    exists ((Get (page_url cfg) :: evs ++ map (Select soup) (pre ++ [s])) ++ evs2), (0 + k)%nat, w1.
    repeat split.
    + rewrite Hrun. fold soup w1. rewrite Hw. apply advance_advance.
    + rewrite selects_of_app. simpl. rewrite selects_of_app, selects_of_map.
      rewrite (selects_of_none evs), (selects_of_none evs2).
      * now rewrite app_nil_r.
      * eapply Forall_impl; [exact Hq|]. intros e. apply queries_not_select.
      * eapply Forall_impl; [exact Hevs|]. intros e. apply is_probe_not_select.
    + apply Hrun.
Qed.

Lemma C4_container_first_match_witness :
  http_get (Sample.site Sample.page_posts) (page_url Sample.cfg) = Some "<html>"
  /\ first_match Sample.page_posts (item_selectors Sample.cfg) ["article"] ".post" ["li"]
  /\ exists evs k w1,
       snd (scrape_items (Sample.site Sample.page_posts) Sample.cfg Sample.w0)
       = advance evs k Sample.w0
       /\ selects_of evs = ["article"; ".post"]
       /\ scrape_items (Sample.site Sample.page_posts) Sample.cfg Sample.w0
          = extract (Sample.site Sample.page_posts) Sample.cfg
                    (select Sample.page_posts ".post") w1.
Proof.
  assert (Hget : http_get (Sample.site Sample.page_posts) (page_url Sample.cfg)
                 = Some "<html>") by reflexivity.
  assert (Hfirst : first_match Sample.page_posts (item_selectors Sample.cfg)
                     ["article"] ".post" ["li"]).
  { repeat split; [repeat constructor|discriminate]. }
  repeat split; [repeat constructor|discriminate|].
  exact (proj2 (C4_container_first_match (Sample.site Sample.page_posts) Sample.cfg
                  "<html>" Sample.w0 Hget) ["article"] ".post" ["li"] Hfirst).
Defined.

(** C5, where the code departs from the claim.  The claim: a page on which
    an item selector matches and every matched element lacks a title or a
    link raises the error of line 140.  The code: on the page of C1 the
    selector [article] matches, and no link selector yields an element
    with a non-empty [href] below the only element it matches; yet
    [scrape_items] raises nothing and returns an item.  The element that
    the last link selector matched, without [href], is still in [link_el]
    at line 118, so the candidate is not skipped and [items] is not empty
    at line 139.  This is the defect of C1. *)
Theorem C5_linkless_page_is_parsed :
  let soup := Sample.page [Sample.article_nohref] in
  let env := Sample.site soup in
  http_get env (page_url Sample.cfg) = Some "<html>"
  /\ first_match (BeautifulSoup env "<html>") (item_selectors Sample.cfg)
                 [] "article" [".post"; "li"]
  /\ Forall (lacks_href Sample.cfg) (select (BeautifulSoup env "<html>") "article")
  /\ fst (scrape_items env Sample.cfg Sample.w0)
     = Ok [ {| it_title := txt "Obavijest";
               it_link := Some "https://example.hr/";
               it_date := Sample.clock 0 |} ]
  /\ fst (scrape_items env Sample.cfg Sample.w0)
     <> Raise (RuntimeError (none_parsable_msg Sample.cfg)).
Proof.
  intros soup env.
  assert (Hrun : fst (scrape_items env Sample.cfg Sample.w0)
                 = Ok [ {| it_title := txt "Obavijest";
                           it_link := Some "https://example.hr/";
                           it_date := Sample.clock 0 |} ])
    by (vm_compute; reflexivity).
  split; [reflexivity|]. split.
  { repeat split; [constructor|discriminate]. }
  split; [repeat constructor|]. split; [exact Hrun|].
  rewrite Hrun. discriminate.
Qed.

(** C6: the cap of thirty applies to the candidates.  With [s] the first
    item selector that matches, only the first thirty elements that [s]
    matches count: the call is the same for every container with these
    first thirty elements, the only elements queried below the document
    are these thirty, and a returned list has at most thirty items, each
    titled from one of these thirty (so it may hold fewer than thirty,
    whatever follows the thirtieth element). *)
Theorem C6_cap_on_candidates env cfg html pre s post w :
  http_get env (page_url cfg) = Some html ->
  let soup := BeautifulSoup env html in
  first_match soup (item_selectors cfg) pre s post ->
  let considered := take 30 (select soup s) in
  (exists w1, forall found,
      take 30 found = considered ->
      scrape_items env cfg w = extract env cfg found w1)
  /\ (exists evs k,
        snd (scrape_items env cfg w) = advance evs k w
        /\ Forall (fun e => forall el sel,
                     e = SelectOne el sel -> el = soup \/ In el considered) evs)
  /\ (forall items,
        fst (scrape_items env cfg w) = Ok items ->
        (length items <= 30)%nat
        /\ Forall (fun x => exists it, In it considered /\ titled_from cfg it x) items).
Proof.
  intros Hget soup Hfirst considered.
  destruct (scrape_items_run env cfg html pre s post Hget Hfirst) as (evs & Hevs & Hrun).
  fold soup in Hevs, Hrun.
  set (w1 := advance (Get (page_url cfg) :: evs ++ map (Select soup) (pre ++ [s])) 0 w).
  split; [|split].
  - exists w1. intros found Hsame.
    rewrite Hrun. fold w1.
    rewrite <- (extract_take env cfg found), Hsame.
    unfold considered. now rewrite extract_take.
  - destruct (extract_effects env cfg (select soup s) w1) as (evs2 & k & Hw & Hq).
    exists ((Get (page_url cfg) :: evs ++ map (Select soup) (pre ++ [s])) ++ evs2), (0 + k)%nat.
    split.
    + rewrite Hrun. fold w1. rewrite Hw. apply advance_advance.
    + apply Forall_app. split; [constructor; [discriminate|]; apply Forall_app; split|].
      * eapply Forall_impl; [exact Hevs|].
        intros e He el sel ->. simpl in He. left. apply He.
      * clear. induction (pre ++ [s]) as [|x r IH]; simpl; constructor;
          [discriminate|exact IH].
      * eapply Forall_impl; [exact Hq|].
        intros e He el sel ->. right. exact He.
  - intros items Hok. rewrite Hrun in Hok. fold w1 in Hok.
    pose proof (extract_spec env cfg (select soup s) w1) as H.
    rewrite Hok in H. destruct H as (_ & Hlen & Hfrom). split; [exact Hlen|].
    eapply Forall_impl; [exact Hfrom|].
    intros x (it & Hit & Hx). exists it. split; [exact Hit|].
    now apply titled_first_from.
Qed.

Lemma C6_cap_on_candidates_witness :
  http_get (Sample.site Sample.page_forty) (page_url Sample.cfg) = Some "<html>"
  /\ first_match Sample.page_forty (item_selectors Sample.cfg) [] "article" [".post"; "li"]
  /\ length (select Sample.page_forty "article") = 40%nat
  /\ fst (scrape_items (Sample.site Sample.page_forty) Sample.cfg Sample.w0)
     = Ok [ {| it_title := txt "Vijest";
               it_link := Some "https://example.hr/v";
               it_date := Sample.clock 0 |} ]
  /\ (length [ {| it_title := txt "Vijest";
                  it_link := Some "https://example.hr/v";
                  it_date := Sample.clock 0 |} ] <= 30)%nat
  /\ Forall (fun x => exists it,
               In it (take 30 (select Sample.page_forty "article"))
               /\ titled_from Sample.cfg it x)
       [ {| it_title := txt "Vijest";
            it_link := Some "https://example.hr/v";
            it_date := Sample.clock 0 |} ].
Proof.
  assert (Hget : http_get (Sample.site Sample.page_forty) (page_url Sample.cfg)
                 = Some "<html>") by reflexivity.
  assert (Hfirst : first_match Sample.page_forty (item_selectors Sample.cfg)
                     [] "article" [".post"; "li"]).
  { repeat split; [constructor|discriminate]. }
  assert (Hrun : fst (scrape_items (Sample.site Sample.page_forty) Sample.cfg Sample.w0)
                 = Ok [ {| it_title := txt "Vijest";
                           it_link := Some "https://example.hr/v";
                           it_date := Sample.clock 0 |} ])
    by (vm_compute; reflexivity).
  split; [exact Hget|]. split; [exact Hfirst|]. split; [reflexivity|].
  split; [exact Hrun|].
  exact (proj2 (proj2 (C6_cap_on_candidates (Sample.site Sample.page_forty) Sample.cfg
                         "<html>" [] "article" [".post"; "li"] Sample.w0 Hget Hfirst))
               _ Hrun).
Defined.

(** ** Digit groups *)

Lemma all_digits_snoc cur c :
  all_digits cur = true -> isdecimal c = true -> all_digits (cur ++ [c]) = true.
Proof.
  intros Hcur Hc. induction cur as [|x cur IH]; simpl.
  - now rewrite Hc.
  - simpl in Hcur. apply andb_prop in Hcur. destruct Hcur as (Hx & Hcur).
    rewrite Hx. now apply IH.
Qed.

Lemma concat_flush cur : concat (flush cur) = cur.
Proof. destruct cur; simpl; [reflexivity|]. now rewrite app_nil_r. Qed.

Lemma findall_digits_from_spec s : forall cur,
  all_digits cur = true ->
  Forall (fun g => g <> [] /\ all_digits g = true) (findall_from isdecimal cur s)
  /\ concat (findall_from isdecimal cur s) = cur ++ keep_digits s.
Proof.
  induction s as [|c r IH]; intros cur Hcur; simpl.
  - rewrite app_nil_r, concat_flush. split; [|reflexivity].
    destruct cur; simpl; repeat constructor; [discriminate|exact Hcur].
  - destruct (isdecimal c) eqn:Hc.
    + destruct (IH _ (all_digits_snoc cur c Hcur Hc)) as (Hall & Hcat).
      split; [exact Hall|]. rewrite Hcat. now rewrite <- app_assoc.
    + destruct (IH [] eq_refl) as (Hall & Hcat). split.
      * apply Forall_app. split; [|exact Hall].
        destruct cur; simpl; repeat constructor; [discriminate|exact Hcur].
      * now rewrite concat_app, concat_flush, Hcat.
Qed.

Lemma decimal_range c v : decimal c = Some v -> (0 <= v <= 9)%Z.
Proof.
  unfold decimal.
  destruct (List.find _ decimal_zeros) as [z|] eqn:E; [|discriminate].
  intros H. injection H as <-.
  apply find_some in E. destruct E as (_ & E).
  apply andb_prop in E. destruct E as (E1%Z.leb_le & E2%Z.leb_le). lia.
Qed.

Lemma digits_from_some s : forall acc,
  all_digits s = true -> (0 <= acc)%Z ->
  exists n, digits_from acc s = Some n /\ (0 <= n)%Z.
Proof.
  induction s as [|c r IH]; intros acc Hs Hacc; simpl; [now exists acc|].
  simpl in Hs. apply andb_prop in Hs. destruct Hs as (Hc & Hr).
  unfold isdecimal in Hc. destruct (decimal c) as [v|] eqn:Hv; [|discriminate].
  apply IH; [exact Hr|]. pose proof (decimal_range c v Hv). lia.
Qed.

(** [int] on a group of digits: the number it writes when the group has
    at most 4300 digits, [ValueError] when it has more. *)
Lemma int_digits g :
  g <> [] -> all_digits g = true ->
  (Z.of_nat (length g) <= max_str_digits)%Z ->
  exists n, int g = Ok n /\ (0 <= n)%Z.
Proof.
  intros Hne Hg Hlen. unfold int.
  assert (E : (max_str_digits <? Z.of_nat (length g))%Z = false) by (apply Z.ltb_ge; lia).
  rewrite E.
  destruct (digits_from_some g 0 Hg ltac:(lia)) as (n & Hn & Hpos).
  exists n. split; [|exact Hpos].
  unfold digits_value. destruct g; [contradiction|]. now rewrite Hn.
Qed.

Lemma int_too_long g :
  (max_str_digits < Z.of_nat (length g))%Z ->
  int g = Raise (ValueError (exceeds_limit_msg (Z.of_nat (length g)))).
Proof.
  intros Hlen. unfold int.
  assert (E : (max_str_digits <? Z.of_nat (length g))%Z = true) by (apply Z.ltb_lt; lia).
  now rewrite E.
Qed.


(** What [scrape_item] returns, in terms of the date loop: the candidate is
    skipped, or its item carries what the loop gives for the reading of the
    clock. *)
Lemma scrape_item_date env cfg it :
  (forall w, fst (scrape_item env cfg it w) = Ok None)
  \/ exists t l evs,
       forall w,
         fst (scrape_item env cfg it w)
         = match fst (date_loop it (date_selectors cfg) (utcnow env (ticks w))
                        (advance [] 1 (advance evs 0 w))) with
           | Ok dt => Ok (Some {| it_title := clean (get_text t);
                                  it_link := urljoin env (page_url cfg) (get l "href");
                                  it_date := dt |})
           | Raise e => Raise e
           end.
Proof.
  destruct (scrape_item_run env cfg it) as (tv & lv & evs & _ & Hrun & _).
  destruct tv as [t|]; [destruct lv as [l|]|].
  - right. exists t, l, evs. intros w.
    rewrite Hrun, finish_item_keep. simpl. now rewrite Nat.add_0_r.
  - left. intros w. now rewrite Hrun.
  - left. intros w. now rewrite Hrun.
Qed.




(** C8, the claim as stated fails: for the two items [item_a], [item_b],
    extracted in this order, the identifiers of the entries of the feed
    are those of [item_b], then [item_a]. *)
Lemma C8_entry_order_counterexample :
  map entry_id (fg_entries (feed_of Sample.cfg [Sample.item_a; Sample.item_b]))
  = [Some "https://example.hr/b"; Some "https://example.hr/a"]
  /\ map entry_id (fg_entries (feed_of Sample.cfg [Sample.item_a; Sample.item_b]))
     <> map it_link [Sample.item_a; Sample.item_b].
Proof. split; [reflexivity|discriminate]. Qed.

(** C8, amended: the feed holds exactly one entry per extracted item, in
    the reverse of the order of the extracted sequence (each [add_entry]
    puts its entry in front; the order is not by date), and the identifier
    of each entry is the link of its item, so equal links give equal
    identifiers and nothing is deduplicated. *)
Theorem C8_feed_entries cfg items :
  fg_entries (feed_of cfg items) = rev (map entry_of items)
  /\ length (fg_entries (feed_of cfg items)) = length items
  /\ map entry_id (fg_entries (feed_of cfg items)) = rev (map it_link items)
  /\ Forall (fun fe => entry_id fe = entry_link fe) (fg_entries (feed_of cfg items)).
Proof.
  assert (E : fg_entries (feed_of cfg items) = rev (map entry_of items)).
  { unfold feed_of. rewrite fold_add_item_entries. apply app_nil_r. }
  rewrite E. repeat split.
  - now rewrite length_rev, length_map.
  - rewrite <- map_rev, <- map_rev, map_map. reflexivity.
  - clear E. induction items as [|x r IH]; simpl; [constructor|].
    apply Forall_app. split; [exact IH|]. repeat constructor.
Qed.

(** ** The words of a text *)

Lemma findall_from_nonempty cls s : forall cur,
  cur <> [] -> findall_from cls cur s <> [].
Proof.
  induction s as [|c r IH]; intros cur Hcur; simpl.
  - destruct cur; [contradiction|discriminate].
  - destruct (cls c).
    + apply IH. now destruct cur.
    + destruct cur; [contradiction|discriminate].
Qed.

Lemma words_lstrip s : words (lstrip s) = words s.
Proof.
  unfold words. induction s as [|c r IH]; simpl; [reflexivity|].
  destruct (isspace c) eqn:Hc; simpl; [exact IH|]. now rewrite Hc.
Qed.

Lemma words_from_rstrip s : forall cur,
  findall_from (fun c => negb (isspace c)) cur (rstrip s)
  = findall_from (fun c => negb (isspace c)) cur s.
Proof.
  induction s as [|c r IH]; intros cur; [reflexivity|].
  simpl. destruct (rstrip r) as [|c' r'] eqn:Hr.
  - destruct (isspace c) eqn:Hc; simpl.
    + rewrite <- IH. simpl. now rewrite app_nil_r.
    + rewrite Hc. simpl. now rewrite <- IH.
  - change (findall_from (fun c0 => negb (isspace c0)) cur (c :: c' :: r'))
      with (if negb (isspace c)
            then findall_from (fun c0 => negb (isspace c0)) (cur ++ [c]) (c' :: r')
            else flush cur ++ findall_from (fun c0 => negb (isspace c0)) [] (c' :: r')).
    now rewrite !IH.
Qed.

Lemma words_from_sub_spaces s :
  findall_from (fun c => negb (isspace c)) [] (sub_spaces true s)
  = findall_from (fun c => negb (isspace c)) [] s
  /\ forall cur,
       findall_from (fun c => negb (isspace c)) cur (sub_spaces false s)
       = findall_from (fun c => negb (isspace c)) cur s.
Proof.
  induction s as [|c r (IH1 & IH2)]; simpl; [split; reflexivity|].
  destruct (isspace c) eqn:Hc; simpl.
  - split; [exact IH1|]. intros cur. now rewrite IH1.
  - rewrite Hc. simpl. split; [apply IH2|]. intros cur. apply IH2.
Qed.

(** [clean] keeps the words of a text. *)
Lemma words_clean s : words (clean s) = words s.
Proof.
  unfold clean, strip, words.
  rewrite (proj2 (words_from_sub_spaces _)), words_from_rstrip.
  apply words_lstrip.
Qed.

(** A normalized text is its words joined by single spaces. *)
Lemma unwords_single_spaced t : forall cur,
  single_spaced t = true ->
  cur <> [] \/ left_tight t = true ->
  unwords (findall_from (fun c => negb (isspace c)) cur t) = cur ++ t.
Proof.
  induction t as [|c r IH]; intros cur Hs Hcur.
  - simpl. rewrite app_nil_r. destruct cur; reflexivity.
  - simpl in Hs. apply andb_prop in Hs. destruct Hs as (Hc & Hr).
    simpl. destruct (isspace c) eqn:Ec; simpl.
    + destruct Hcur as [Hcur|Hcur]; [|simpl in Hcur; rewrite Ec in Hcur; discriminate].
      apply andb_prop in Hc. destruct Hc as (Esp%Z.eqb_eq & Hnext). subst c.
      destruct r as [|c' r']; [discriminate|].
      assert (Hlt : left_tight (c' :: r') = true) by exact Hnext.
      pose proof (IH [] Hr (or_intror Hlt)) as Hrest. simpl app in Hrest.
      assert (Hne : findall_from (fun c => negb (isspace c)) [] (c' :: r') <> []).
      { simpl. simpl in Hnext. rewrite Hnext. now apply findall_from_nonempty. }
      destruct cur as [|x cur]; [contradiction|].
      destruct (findall_from (fun c => negb (isspace c)) [] (c' :: r')) as [|w ws];
        [contradiction|].
      change (unwords (flush (x :: cur) ++ w :: ws))
        with ((x :: cur) ++ 0x20%Z :: unwords (w :: ws)).
      now rewrite Hrest.
    + rewrite IH; [now rewrite <- app_assoc|exact Hr|].
      left. now destruct cur.
Qed.

(** [clean(s)] is [" ".join(s.split())]. *)
Lemma clean_unwords s : clean s = unwords (words s).
Proof.
  rewrite <- words_clean. unfold words.
  pose proof (clean_normalized s) as H. unfold normalized in H.
  apply andb_prop in H. destruct H as (Hl & Hs).
  now rewrite (unwords_single_spaced (clean s) [] Hs (or_intror Hl)).
Qed.

(** C9: [clean] is idempotent.  Its result is the words of its argument
    (the maximal runs of characters that are not whitespace), in their
    order, with one space between two words that follow each other: so
    every run of whitespace between two words has become a single space,
    the whitespace at both ends is gone, and nothing else has changed.
    Hence the result is normalized: it neither starts nor ends with
    whitespace, and each whitespace character in it is a single space
    between two characters that are not whitespace.  The whitespace
    characters are those of [str.isspace]: the space, the tab and the
    newline among them. *)
Theorem C9_clean_idempotent (x : text) :
  clean (clean x) = clean x
  /\ clean x = unwords (words x)
  /\ normalized (clean x) = true
  /\ strip (clean x) = clean x
  /\ isspace 0x20 = true /\ isspace 0x09 = true /\ isspace 0x0A = true.
Proof.
  split; [apply clean_fixed|]. split; [apply clean_unwords|].
  split; [apply clean_normalized|]. split; [apply strip_clean|].
  repeat split.
Qed.

(** C10: when [scrape_items] raises, [build_rss] raises the same exception
    and has done nothing to the file system: it made no directory and
    wrote no file, the directories and the files (with them a feed file
    left by an earlier run) are as before, and none of the events of the
    call is a file-system event. *)
Theorem C10_no_output_on_failure env cfg out_dir w e :
  fst (scrape_items env cfg w) = Raise e ->
  fst (build_rss env cfg out_dir w) = Raise e
  /\ dirs (snd (build_rss env cfg out_dir w)) = dirs w
  /\ files (snd (build_rss env cfg out_dir w)) = files w
  /\ exists evs k,
       snd (build_rss env cfg out_dir w) = advance evs k w
       /\ Forall (fun ev => ~ is_fs ev) evs.
Proof.
  intros Hraise.
  destruct (scrape_items_effects env cfg w) as (evs & k & Hw & Hevs).
  assert (Hrun : build_rss env cfg out_dir w = (Raise e, advance evs k w)).
  { unfold build_rss, bind.
    destruct (scrape_items env cfg w) as [[items|e'] w1]; simpl in *; [discriminate|].
    injection Hraise as ->. now subst w1. }
  rewrite Hrun. simpl. repeat split. now exists evs, k.
Qed.

Lemma C10_no_output_on_failure_witness :
  fst (scrape_items Sample.offline Sample.cfg Sample.w_old)
  = Raise (RequestException "https://example.hr/")
  /\ fst (build_rss Sample.offline Sample.cfg ["docs"; "rss"] Sample.w_old)
     = Raise (RequestException "https://example.hr/")
  /\ files (snd (build_rss Sample.offline Sample.cfg ["docs"; "rss"] Sample.w_old))
     = files Sample.w_old
  /\ files Sample.w_old !! ["docs"; "rss"; "vijesti.xml"] = Some "<rss>old</rss>".
Proof.
  assert (Hraise : fst (scrape_items Sample.offline Sample.cfg Sample.w_old)
                   = Raise (RequestException "https://example.hr/")) by reflexivity.
  destruct (C10_no_output_on_failure Sample.offline Sample.cfg ["docs"; "rss"]
              Sample.w_old _ Hraise) as (Hr & _ & Hfiles & _).
  split; [exact Hraise|]. split; [exact Hr|]. split; [exact Hfiles|].
  vm_compute. reflexivity.
Defined.

(** * Further properties of the code *)

(** ** [clean] and the digit groups *)

(** X1: [clean] keeps every character that is not whitespace, in order,
    and adds none; so its result is empty exactly when the argument holds
    nothing but whitespace (the whitespace of [str.isspace], the no-break
    space included). *)
Theorem clean_keeps_nonspace (s : text) :
  keep_nonspace (clean s) = keep_nonspace s
  /\ (clean s = [] <-> keep_nonspace s = [])
  /\ (clean s = [] <-> all_space s = true).
Proof.
  split; [apply keep_nonspace_clean|]. split.
  - rewrite keep_nonspace_all_space. apply clean_empty_iff.
  - apply clean_empty_iff.
Qed.

Lemma single_spaced_tail c r : single_spaced (c :: r) = true -> single_spaced r = true.
Proof. simpl. intros H. now apply andb_prop in H. Qed.

Lemma single_spaced_rstrip s : single_spaced s = true -> rstrip s = s.
Proof.
  induction s as [|c r IH]; [reflexivity|].
  intros H. pose proof (single_spaced_tail _ _ H) as Hr.
  simpl. rewrite (IH Hr). destruct r as [|c' r']; [|reflexivity].
  simpl in H. destruct (isspace c); [|reflexivity].
  rewrite andb_false_r in H. discriminate.
Qed.

Lemma sub_spaces_after_space s :
  left_tight s = true -> sub_spaces true s = sub_spaces false s.
Proof.
  destruct s as [|c r]; simpl; [reflexivity|].
  now destruct (isspace c).
Qed.

Lemma single_spaced_sub_spaces s : single_spaced s = true -> sub_spaces false s = s.
Proof.
  induction s as [|c r IH]; [reflexivity|].
  intros H. pose proof (single_spaced_tail _ _ H) as Hr.
  simpl in H. simpl. destruct (isspace c) eqn:Hc.
  - apply andb_prop in H. destruct H as (H & _).
    apply andb_prop in H. destruct H as (Hsp & Hnext).
    apply Z.eqb_eq in Hsp. subst c.
    rewrite sub_spaces_after_space.
    + now rewrite (IH Hr).
    + destruct r; [discriminate|exact Hnext].
  - now rewrite (IH Hr).
Qed.

(** X2: the texts that [clean] leaves as they are, are the normalized
    ones: those that do not start with whitespace and in which each
    whitespace character is a space followed by a character that is not
    whitespace. *)
Theorem clean_fixed_points (s : text) :
  clean s = s <-> normalized s = true.
Proof.
  split.
  - intros E. rewrite <- E. apply clean_normalized.
  - intros H. unfold normalized in H. apply andb_prop in H. destruct H as (Hl & Hs).
    unfold clean, strip.
    rewrite (left_tight_lstrip _ Hl), (single_spaced_rstrip _ Hs).
    now apply single_spaced_sub_spaces.
Qed.

(** X3: the groups that [re.findall(r"\d+", s)] gives are not empty and
    hold decimal digits only (of any script), and together, in order, they
    are the digits of [s]: no digit is lost, repeated or moved.  A group of
    at most 4300 digits converts with [int] to a number that is not
    negative; a longer one makes [int] raise [ValueError]. *)
Theorem findall_digits_partition (s : text) :
  Forall (fun g =>
            g <> [] /\ all_digits g = true
            /\ ((Z.of_nat (length g) <= max_str_digits)%Z ->
                exists n, int g = Ok n /\ (0 <= n)%Z)
            /\ ((max_str_digits < Z.of_nat (length g))%Z ->
                int g = Raise (ValueError (exceeds_limit_msg (Z.of_nat (length g))))))
         (findall_digits s)
  /\ concat (findall_digits s) = keep_digits s.
Proof.
  destruct (findall_digits_from_spec s [] eq_refl) as (Hall & Hcat).
  split; [|exact Hcat].
  eapply Forall_impl; [exact Hall|].
  intros g (Hne & Hd). split; [exact Hne|]. split; [exact Hd|]. split.
  - now apply int_digits.
  - apply int_too_long.
Qed.

Lemma findall_digits_partition_witness :
  findall_digits (txt "12.05.2024.") = [txt "12"; txt "05"; txt "2024"]
  /\ (exists n, int (txt "12") = Ok n /\ (0 <= n)%Z)
  /\ concat (findall_digits (txt "12.05.2024.")) = keep_digits (txt "12.05.2024.").
Proof.
  destruct (findall_digits_partition (txt "12.05.2024.")) as (Hall & Hcat).
  split; [reflexivity|]. split; [|exact Hcat].
  assert (E : findall_digits (txt "12.05.2024.") = [txt "12"; txt "05"; txt "2024"])
    by reflexivity.
  rewrite E in Hall. inversion Hall as [|? ? (_ & _ & Hint & _) _]; subst.
  apply Hint. vm_compute. discriminate.
Defined.

(** ** The date of an item *)



(** X4: when no date selector matches below a candidate (also when
    [date_selectors] is empty), the date loop tries every selector, raises
    nothing and returns the timestamp it was given; the candidate is then
    skipped or gives an item dated with the reading of the clock taken for
    it. *)
Theorem date_default_without_match env cfg it :
  Forall (fun ds => select_one it ds = None) (date_selectors cfg) ->
  (forall dt, logs (date_loop it (date_selectors cfg) dt) dt
                   (map (SelectOne it) (date_selectors cfg)))
  /\ (forall w,
        fst (scrape_item env cfg it w) = Ok None
        \/ exists x, fst (scrape_item env cfg it w) = Ok (Some x)
                     /\ it_date x = utcnow env (ticks w)).
Proof.
  intros Hnone. split.
  - intros dt. now apply date_loop_none.
  - intros w. destruct (scrape_item_date env cfg it) as [Hskip|(t & l & evs & Hkeep)].
    + left. apply Hskip.
    + right. rewrite Hkeep, (date_loop_none it _ _ Hnone). simpl.
      eexists. split; reflexivity.
Qed.

Lemma date_default_without_match_witness :
  Forall (fun ds => select_one (Sample.article "Prva" "/p1") ds = None)
         (date_selectors Sample.cfg)
  /\ (forall w,
        fst (scrape_item (Sample.site Sample.page_posts) Sample.cfg
                         (Sample.article "Prva" "/p1") w) = Ok None
        \/ exists x,
             fst (scrape_item (Sample.site Sample.page_posts) Sample.cfg
                              (Sample.article "Prva" "/p1") w) = Ok (Some x)
             /\ it_date x = Sample.clock (ticks w)).
Proof.
  assert (H : Forall (fun ds => select_one (Sample.article "Prva" "/p1") ds = None)
                     (date_selectors Sample.cfg)) by (repeat constructor).
  split; [exact H|].
  exact (proj2 (date_default_without_match (Sample.site Sample.page_posts) Sample.cfg
                  (Sample.article "Prva" "/p1") H)).
Defined.







(** ** The title and the link of an item *)

Lemma title_loop_first it pre ts post t :
  Forall (fun x => select_one it x = None) pre ->
  select_one it ts = Some t ->
  logs (title_loop it (pre ++ ts :: post) None) (Some t)
       (map (SelectOne it) (pre ++ [ts])).
Proof.
  intros Hpre Hts.
  induction Hpre as [|x r Hx _ IH]; simpl.
  - apply logs_emit_then. rewrite Hts. apply logs_ret.
  - apply logs_emit_then. rewrite Hx. exact IH.
Qed.

Lemma link_loop_first it pre ls post :
  Forall (fun x => has_href (select_one it x) = false) pre ->
  has_href (select_one it ls) = true ->
  forall acc,
    logs (link_loop it (pre ++ ls :: post) acc) (select_one it ls)
         (map (SelectOne it) (pre ++ [ls])).
Proof.
  intros Hpre Hls.
  induction Hpre as [|x r Hx _ IH]; intros acc; simpl.
  - apply logs_emit_then. rewrite Hls. apply logs_ret.
  - apply logs_emit_then. rewrite Hx. apply IH.
Qed.

(** What the link loop leaves in [link_el] was matched by a link selector
    (or was there before the loop). *)
Lemma link_loop_origin it sels :
  forall acc,
  exists v evs,
    logs (link_loop it sels acc) v evs
    /\ (v = acc \/ exists ls, In ls sels /\ select_one it ls = v).
Proof.
  induction sels as [|ls rest IH]; intros acc.
  - exists acc, []. split; [apply logs_ret|now left].
  - destruct (has_href (select_one it ls)) eqn:Hls.
    + exists (select_one it ls), [SelectOne it ls]. split.
      * simpl. apply logs_emit_then. rewrite Hls. apply logs_ret.
      * right. exists ls. split; [now left|reflexivity].
    + destruct (IH (select_one it ls)) as (v & evs & Hlog & Hv).
      exists v, (SelectOne it ls :: evs). split.
      * simpl. apply logs_emit_then. rewrite Hls. exact Hlog.
      * right. destruct Hv as [->|(ls' & Hin & Hv)].
        -- exists ls. split; [now left|reflexivity].
        -- exists ls'. split; [now right|exact Hv].
Qed.

(** X6: the title comes from the first title selector that matches below
    the candidate: the loop queries the selectors up to it and none after,
    and an item returned for the candidate is titled with the normalized
    text of what that selector matches first, whatever the later selectors
    match. *)
Theorem title_from_first_match env cfg it pre ts post t :
  title_selectors cfg = pre ++ ts :: post ->
  Forall (fun x => select_one it x = None) pre ->
  select_one it ts = Some t ->
  logs (title_loop it (title_selectors cfg) None) (Some t)
       (map (SelectOne it) (pre ++ [ts]))
  /\ forall w x, fst (scrape_item env cfg it w) = Ok (Some x) ->
                 it_title x = clean (get_text t).
Proof.
  intros Hsels Hpre Hts.
  assert (Ht : logs (title_loop it (title_selectors cfg) None) (Some t)
                    (map (SelectOne it) (pre ++ [ts]))).
  { rewrite Hsels. now apply title_loop_first. }
  split; [exact Ht|].
  intros w x.
  destruct (link_loop_origin it (link_selectors cfg) None) as (lv & e2 & Hl & _).
  unfold scrape_item, bind. rewrite (Ht w), (Hl _).
  destruct lv as [l|]; [|discriminate].
  rewrite finish_item_keep. simpl.
  destruct (fst (date_loop it (date_selectors cfg) _ _)) as [dt|e]; [|discriminate].
  intros E. now injection E as <-.
Qed.

Lemma title_from_first_match_witness :
  title_selectors Sample.cfg = [] ++ "h2 a" :: ["h2"]
  /\ select_one Sample2.article_two_titles "h2 a"
     = Some (Sample.leaf "Kratki naslov" [("href", "/a1")])
  /\ select_one Sample2.article_two_titles "h2"
     = Some (Sample.leaf "Kratki naslov (novo)" [])
  /\ fst (scrape_item (Sample.site (Sample.page [Sample2.article_two_titles]))
                      Sample.cfg Sample2.article_two_titles Sample.w0)
     = Ok (Some {| it_title := txt "Kratki naslov";
                   it_link := Some "https://example.hr/a1";
                   it_date := Sample.clock 0 |})
  /\ it_title {| it_title := txt "Kratki naslov";
                 it_link := Some "https://example.hr/a1";
                 it_date := Sample.clock 0 |}
     = clean (get_text (Sample.leaf "Kratki naslov" [("href", "/a1")])).
Proof.
  assert (Hrun : fst (scrape_item (Sample.site (Sample.page [Sample2.article_two_titles]))
                                  Sample.cfg Sample2.article_two_titles Sample.w0)
                 = Ok (Some {| it_title := txt "Kratki naslov";
                               it_link := Some "https://example.hr/a1";
                               it_date := Sample.clock 0 |}))
    by (vm_compute; reflexivity).
  split; [reflexivity|]. split; [reflexivity|]. split; [reflexivity|].
  split; [exact Hrun|].
  exact (proj2 (title_from_first_match
                  (Sample.site (Sample.page [Sample2.article_two_titles]))
                  Sample.cfg Sample2.article_two_titles [] "h2 a" ["h2"]
                  (Sample.leaf "Kratki naslov" [("href", "/a1")])
                  eq_refl ltac:(constructor) eq_refl) Sample.w0 _ Hrun).
Defined.

(** X7: the link comes from the first link selector whose match has a
    non-empty [href]: selectors whose match has none (or that match
    nothing) are passed over, the loop stops there, and an item returned
    for the candidate has that [href] resolved against the page URL as its
    link. *)
Theorem link_from_first_href env cfg it pre ls post l h :
  link_selectors cfg = pre ++ ls :: post ->
  Forall (fun x => has_href (select_one it x) = false) pre ->
  select_one it ls = Some l ->
  get l "href" = Some h ->
  nonempty h = true ->
  (forall acc, logs (link_loop it (link_selectors cfg) acc) (Some l)
                    (map (SelectOne it) (pre ++ [ls])))
  /\ forall w x, fst (scrape_item env cfg it w) = Ok (Some x) ->
                 it_link x = Some (urljoin_str env (page_url cfg) h)
                 /\ (nonempty (page_url cfg) = true ->
                     it_link x = Some (urljoin_rfc env (page_url cfg) h)).
Proof.
  intros Hsels Hpre Hls Hget Hh.
  assert (Hhref : has_href (select_one it ls) = true).
  { rewrite Hls. simpl. now rewrite Hget. }
  assert (Hl : forall acc, logs (link_loop it (link_selectors cfg) acc) (Some l)
                                (map (SelectOne it) (pre ++ [ls]))).
  { intros acc. rewrite Hsels, <- Hls. now apply link_loop_first. }
  split; [exact Hl|].
  intros w x.
  destruct (title_loop_logs it (title_selectors cfg)) as (tv & e1 & Ht & _).
  unfold scrape_item, bind. rewrite (Ht w), (Hl None _).
  destruct tv as [t|]; [|discriminate].
  rewrite finish_item_keep. simpl.
  destruct (fst (date_loop it (date_selectors cfg) _ _)) as [dt|e]; [|discriminate].
  intros E. injection E as <-. simpl. rewrite Hget. simpl. split; [reflexivity|].
  intros Hbase. unfold urljoin_str. now rewrite Hbase, Hh.
Qed.

Lemma link_from_first_href_witness :
  link_selectors Sample.cfg = ["h2 a"] ++ "a" :: []
  /\ has_href (select_one Sample2.article_two_links "h2 a") = false
  /\ select_one Sample2.article_two_links "a" = Some (Sample.leaf "slika" [("href", "/a2")])
  /\ fst (scrape_item (Sample.site (Sample.page [Sample2.article_two_links]))
                      Sample.cfg Sample2.article_two_links Sample.w0)
     = Ok (Some {| it_title := txt "Naslov";
                   it_link := Some "https://example.hr/a2";
                   it_date := Sample.clock 0 |})
  /\ it_link {| it_title := txt "Naslov";
                it_link := Some "https://example.hr/a2";
                it_date := Sample.clock 0 |}
     = Some (urljoin_str (Sample.site (Sample.page [Sample2.article_two_links]))
                         (page_url Sample.cfg) "/a2").
Proof.
  assert (Hrun : fst (scrape_item (Sample.site (Sample.page [Sample2.article_two_links]))
                                  Sample.cfg Sample2.article_two_links Sample.w0)
                 = Ok (Some {| it_title := txt "Naslov";
                               it_link := Some "https://example.hr/a2";
                               it_date := Sample.clock 0 |}))
    by (vm_compute; reflexivity).
  split; [reflexivity|]. split; [reflexivity|]. split; [reflexivity|].
  split; [exact Hrun|].
  exact (proj1 (proj2 (link_from_first_href
                         (Sample.site (Sample.page [Sample2.article_two_links]))
                         Sample.cfg Sample2.article_two_links ["h2 a"] "a" []
                         (Sample.leaf "slika" [("href", "/a2")]) "/a2"
                         eq_refl ltac:(repeat constructor) eq_refl eq_refl eq_refl)
                      Sample.w0 _ Hrun)).
Defined.

(** ** The items of a page *)

(** What the link loop leaves in [link_el]. *)
Lemma link_loop_result it sels : forall acc,
  exists v evs,
    logs (link_loop it sels acc) v evs
    /\ ((exists pre ls post,
           sels = pre ++ ls :: post
           /\ Forall (fun x => has_href (select_one it x) = false) pre
           /\ has_href (select_one it ls) = true
           /\ v = select_one it ls)
        \/ (Forall (fun x => has_href (select_one it x) = false) sels
            /\ v = match last sels with
                   | Some ls => select_one it ls
                   | None => acc
                   end)).
Proof.
  induction sels as [|ls rest IH]; intros acc.
  - exists acc, []. split; [apply logs_ret|]. right. split; [constructor|reflexivity].
  - destruct (has_href (select_one it ls)) eqn:Hls.
    + exists (select_one it ls), [SelectOne it ls]. split.
      * simpl. apply logs_emit_then. rewrite Hls. apply logs_ret.
      * left. exists [], ls, rest. repeat split; [constructor|exact Hls].
    + destruct (IH (select_one it ls)) as (v & evs & Hlog & Hv).
      exists v, (SelectOne it ls :: evs). split.
      * simpl. apply logs_emit_then. rewrite Hls. exact Hlog.
      * destruct Hv as [(pre & ls' & post & -> & Hpre & Hhref & Hv)|(Hall & Hv)].
        -- left. exists (ls :: pre), ls', post. repeat split; try assumption.
           now constructor.
        -- right. split; [now constructor|].
           rewrite Hv. destruct rest as [|x rest]; [reflexivity|].
           rewrite last_cons_cons.
           destruct (last (x :: rest)) eqn:E; [reflexivity|].
           apply last_None in E. discriminate.
Qed.

(** A candidate is skipped, in every world; or it has a title element and
    a link element, and gives the item made from them with the date of
    the date loop, unless that loop raises. *)
Lemma scrape_item_outcome env cfg it :
  (skipped cfg it /\ dropped env cfg it)
  \/ exists t l evs,
       title_element cfg it t
       /\ link_element cfg it l
       /\ forall w,
            fst (scrape_item env cfg it w)
            = match fst (date_loop it (date_selectors cfg) (utcnow env (ticks w))
                           (advance [] 1 (advance evs 0 w))) with
              | Ok dt => Ok (Some {| it_title := clean (get_text t);
                                     it_link := urljoin env (page_url cfg) (get l "href");
                                     it_date := dt |})
              | Raise e => Raise e
              end.
Proof.
  destruct (title_loop_logs it (title_selectors cfg)) as (tv & e1 & Ht & _ & Htv).
  destruct (link_loop_result it (link_selectors cfg) None) as (lv & e2 & Hl & Hlv).
  assert (Hrun : forall w, scrape_item env cfg it w
                           = finish_item env cfg it tv lv (advance (e1 ++ e2) 0 w)).
  { intros w. unfold scrape_item, bind. rewrite (Ht w), (Hl (advance e1 0 w)).
    now rewrite advance_advance. }
  destruct tv as [t|].
  2:{ left. split; [now left|]. intros w. now rewrite Hrun. }
  destruct lv as [l|].
  - right. exists t, l, (e1 ++ e2). split; [exact Htv|]. split.
    + destruct Hlv as [(pre & ls & post & E & Hpre & Hhref & Hv)|(Hall & Hv)].
      * left. exists pre, ls, post. repeat split; try assumption. now symmetry.
      * right. split; [exact Hall|].
        destruct (last (link_selectors cfg)) as [ls|]; [|discriminate].
        exists ls. split; [reflexivity|now symmetry].
    + intros w. rewrite Hrun, finish_item_keep. simpl. now rewrite Nat.add_0_r.
  - left. split.
    + right. destruct Hlv as [(pre & ls & post & E & Hpre & Hhref & Hv)|(Hall & Hv)].
      * rewrite <- Hv in Hhref. discriminate.
      * split; [exact Hall|].
        destruct (last (link_selectors cfg)) as [ls|]; [now symmetry|exact I].
    + intros w. now rewrite Hrun.
Qed.

(** The loop over the candidates gives one outcome per candidate, in
    order, and appends the items of these outcomes. *)
Lemma items_loop_outcomes env cfg cands :
  forall items w out,
    fst (items_loop env cfg cands items w) = Ok out ->
    exists rs,
      Forall2 (outcome env cfg) cands rs
      /\ out = items ++ somes rs.
Proof.
  induction cands as [|it rest IH]; intros items w out; simpl.
  - intros E. injection E as <-. exists []. split; [constructor|now rewrite app_nil_r].
  - unfold bind.
    destruct (scrape_item_outcome env cfg it)
      as [(Hskip & Hdrop)|(t & l & evs & Ht & Hl & Hkeep)].
    + pose proof (Hdrop w) as Hw.
      destruct (scrape_item env cfg it w) as [[r|e] w1]; simpl in Hw; [|discriminate].
      injection Hw as ->. intros Hout.
      destruct (IH _ _ _ Hout) as (rs & Hrs & ->).
      exists (None :: rs). split; [now constructor|reflexivity].
    + specialize (Hkeep w).
      destruct (scrape_item env cfg it w) as [[r|e] w1]; simpl in Hkeep; [|discriminate].
      destruct (fst (date_loop it (date_selectors cfg) _ _)) as [dt|e]; [|discriminate].
      injection Hkeep as ->. intros Hout.
      destruct (IH _ _ _ Hout) as (rs & Hrs & ->).
      exists (Some {| it_title := clean (get_text t);
                      it_link := urljoin env (page_url cfg) (get l "href");
                      it_date := dt |} :: rs).
      split; [|simpl; now rewrite <- app_assoc].
      constructor; [|exact Hrs]. now exists t, l.
Qed.

Lemma urljoin_some env base url : nonempty base = true -> urljoin env base url <> None.
Proof. intros H. destruct url; simpl; [discriminate|]. now rewrite H. Qed.

Lemma made_from_link env cfg rs :
  nonempty (page_url cfg) = true ->
  forall cands, Forall2 (outcome env cfg) cands rs ->
  Forall (fun x => it_link x <> None) (somes rs).
Proof.
  intros Hbase cands H.
  induction H as [|it r cands rs Hr _ IH]; simpl; [constructor|].
  destruct r as [x|]; [|exact IH].
  constructor; [|exact IH].
  destruct Hr as (t & l & _ & _ & _ & Hlink). rewrite Hlink. now apply urljoin_some.
Qed.

(** X8: the items that [scrape_items] returns are in document order.
    With [s] the first item selector that matches, each of the first
    thirty elements that [s] matches has one outcome, in order: it is
    skipped (it has no title element or no link element), or one item is
    made from it, with the text of its title element as title and the
    [href] of its link element as link; and the items returned are the
    items of these outcomes, in that order, one for each element that
    is not skipped, also when two elements are equal.  With a non-empty
    page URL every link is a string. *)
Theorem items_in_document_order env cfg html pre s post w items :
  http_get env (page_url cfg) = Some html ->
  first_match (BeautifulSoup env html) (item_selectors cfg) pre s post ->
  fst (scrape_items env cfg w) = Ok items ->
  exists rs,
    Forall2 (outcome env cfg) (take 30 (select (BeautifulSoup env html) s)) rs
    /\ items = somes rs
    /\ (nonempty (page_url cfg) = true -> Forall (fun x => it_link x <> None) items).
Proof.
  intros Hget Hfirst Hok.
  destruct (scrape_items_run env cfg html pre s post Hget Hfirst) as (evs & _ & Hrun).
  rewrite Hrun in Hok. unfold extract, bind in Hok.
  destruct (items_loop env cfg (take 30 (select (BeautifulSoup env html) s)) [] _)
    as [[out|e] w1] eqn:Hloop; [|discriminate].
  assert (Hout : out = items) by (destruct out; [discriminate|now injection Hok]).
  subst out.
  destruct (items_loop_outcomes env cfg _ [] _ items ltac:(rewrite Hloop; reflexivity))
    as (rs & Hrs & E).
  simpl in E. exists rs. split; [exact Hrs|]. split; [exact E|].
  intros Hbase. rewrite E. now apply (made_from_link env cfg rs Hbase _ Hrs).
Qed.

Lemma items_in_document_order_witness :
  let soup := Sample.page [Sample.article_bare; Sample.article "Prva" "/p1";
                           Sample.article_bare; Sample.article "Prva" "/p1"] in
  http_get (Sample.site soup) (page_url Sample.cfg) = Some "<html>"
  /\ first_match soup (item_selectors Sample.cfg) [] "article" [".post"; "li"]
  /\ fst (scrape_items (Sample.site soup) Sample.cfg Sample.w0)
     = Ok [ {| it_title := txt "Prva"; it_link := Some "https://example.hr/p1";
               it_date := Sample.clock 0 |};
            {| it_title := txt "Prva"; it_link := Some "https://example.hr/p1";
               it_date := Sample.clock 1 |} ]
  /\ exists rs,
       Forall2 (outcome (Sample.site soup) Sample.cfg) (take 30 (select soup "article")) rs
       /\ [ {| it_title := txt "Prva"; it_link := Some "https://example.hr/p1";
               it_date := Sample.clock 0 |};
            {| it_title := txt "Prva"; it_link := Some "https://example.hr/p1";
               it_date := Sample.clock 1 |} ] = somes rs
       /\ (nonempty (page_url Sample.cfg) = true ->
           Forall (fun x => it_link x <> None)
             [ {| it_title := txt "Prva"; it_link := Some "https://example.hr/p1";
                  it_date := Sample.clock 0 |};
               {| it_title := txt "Prva"; it_link := Some "https://example.hr/p1";
                  it_date := Sample.clock 1 |} ]).
Proof.
  intros soup.
  assert (Hget : http_get (Sample.site soup) (page_url Sample.cfg) = Some "<html>")
    by reflexivity.
  assert (Hfirst : first_match soup (item_selectors Sample.cfg) [] "article" [".post"; "li"]).
  { repeat split; [constructor|discriminate]. }
  assert (Hrun : fst (scrape_items (Sample.site soup) Sample.cfg Sample.w0)
                 = Ok [ {| it_title := txt "Prva"; it_link := Some "https://example.hr/p1";
                           it_date := Sample.clock 0 |};
                        {| it_title := txt "Prva"; it_link := Some "https://example.hr/p1";
                           it_date := Sample.clock 1 |} ])
    by (vm_compute; reflexivity).
  split; [exact Hget|]. split; [exact Hfirst|]. split; [exact Hrun|].
  exact (items_in_document_order (Sample.site soup) Sample.cfg "<html>"
           [] "article" [".post"; "li"] Sample.w0 _ Hget Hfirst Hrun).
Defined.

(** ** The informational checks *)

Lemma try_fetch_rss_step env u rest w :
  try_fetch_rss env (u :: rest) w
  = if rss_hit env u then (Ok (Some u), advance [Get u] 0 w)
    else try_fetch_rss env rest (advance [Get u] 0 w).
Proof.
  simpl. unfold bind, try_except, fetch, bind, emit, rss_hit.
  destruct (http_get env u) as [xml|]; simpl; [|reflexivity].
  now destruct (contains "<rss" xml || contains "<feed" xml).
Qed.

Lemma try_fetch_rss_miss env urls :
  Forall (fun u => rss_hit env u = false) urls ->
  logs (try_fetch_rss env urls) None (map Get urls).
Proof.
  induction 1 as [|u rest Hu _ IH]; intros w; [apply logs_ret|].
  rewrite try_fetch_rss_step, Hu, (IH _). simpl. now rewrite advance_advance.
Qed.

Lemma try_fetch_rss_hit env pre u post :
  Forall (fun x => rss_hit env x = false) pre ->
  rss_hit env u = true ->
  logs (try_fetch_rss env (pre ++ u :: post)) (Some u) (map Get (pre ++ [u])).
Proof.
  intros Hpre Hu.
  induction Hpre as [|x r Hx _ IH]; intros w; simpl app.
  - now rewrite try_fetch_rss_step, Hu.
  - rewrite try_fetch_rss_step, Hx, (IH _). simpl. now rewrite advance_advance.
Qed.

(** X10: [try_fetch_rss] never raises: a request that fails is passed
    over.  It returns the first URL whose request succeeds with a body that
    holds ["<rss"] or ["<feed"], after requesting the URLs up to that one,
    in order, and none after it; when there is no such URL it returns
    [None] after requesting them all. *)
Theorem try_fetch_rss_first_hit env urls :
  (Forall (fun u => rss_hit env u = false) urls ->
   logs (try_fetch_rss env urls) None (map Get urls))
  /\ (forall pre u post,
        urls = pre ++ u :: post ->
        Forall (fun x => rss_hit env x = false) pre ->
        rss_hit env u = true ->
        logs (try_fetch_rss env urls) (Some u) (map Get (pre ++ [u]))).
Proof.
  split; [apply try_fetch_rss_miss|].
  intros pre u post -> Hpre Hu. now apply try_fetch_rss_hit.
Qed.

Lemma try_fetch_rss_first_hit_witness :
  let env := Sample2.server (Sample.page []) in
  guess_common_rss_endpoints env Sample.base
  = ["https://example.hr/feed/"; "https://example.hr/?feed=rss2"; "https://example.hr/rss"]
    ++ "https://example.hr/rss.xml" :: ["https://example.hr/feed.xml"]
  /\ Forall (fun x => rss_hit env x = false)
       ["https://example.hr/feed/"; "https://example.hr/?feed=rss2"; "https://example.hr/rss"]
  /\ rss_hit env "https://example.hr/rss.xml" = true
  /\ logs (try_fetch_rss env (guess_common_rss_endpoints env Sample.base))
          (Some "https://example.hr/rss.xml")
          (map Get (["https://example.hr/feed/"; "https://example.hr/?feed=rss2";
                     "https://example.hr/rss"] ++ ["https://example.hr/rss.xml"])).
Proof.
  intros env.
  assert (Hmiss : Forall (fun x => rss_hit env x = false)
                    ["https://example.hr/feed/"; "https://example.hr/?feed=rss2";
                     "https://example.hr/rss"]) by (repeat constructor).
  split; [reflexivity|]. split; [exact Hmiss|]. split; [reflexivity|].
  exact (proj2 (try_fetch_rss_first_hit env (guess_common_rss_endpoints env Sample.base))
               ["https://example.hr/feed/"; "https://example.hr/?feed=rss2";
                "https://example.hr/rss"]
               "https://example.hr/rss.xml" ["https://example.hr/feed.xml"]
               eq_refl Hmiss eq_refl).
Defined.












(** ** The outcome does not depend on the informational checks *)

Lemma urljoin_same env1 env2 base url :
  (forall b u, urljoin_rfc env1 b u = urljoin_rfc env2 b u) ->
  urljoin env1 base url = urljoin env2 base url.
Proof.
  intros H. destruct url as [u|]; simpl; [|reflexivity].
  unfold urljoin_str. now rewrite H.
Qed.

(** The date loop gives the same result in every world. *)
Lemma date_loop_uniform it sels dt :
  exists r evs, forall w, date_loop it sels dt w = (r, advance evs 0 w).
Proof.
  destruct (date_loop_cases it sels) as [Hall|(pre & ds & post & d_el & -> & Hpre & Hds)].
  - exists (Ok dt), (map (SelectOne it) sels). apply (date_loop_none it sels dt Hall).
  - eexists _, (map (SelectOne it) (pre ++ [ds])). intros w.
    rewrite (date_loop_first it pre ds post d_el dt Hpre Hds). apply parse_date_run.
Qed.

Lemma finish_item_same env1 env2 cfg it title_el link_el w1 w2 :
  (forall b u, urljoin_rfc env1 b u = urljoin_rfc env2 b u) ->
  (forall k, utcnow env1 k = utcnow env2 k) ->
  ticks w1 = ticks w2 ->
  fst (finish_item env1 cfg it title_el link_el w1)
  = fst (finish_item env2 cfg it title_el link_el w2)
  /\ ticks (snd (finish_item env1 cfg it title_el link_el w1))
     = ticks (snd (finish_item env2 cfg it title_el link_el w2)).
Proof.
  intros Hurl Hclock Htick.
  destruct title_el as [t|]; [destruct link_el as [l|]|]; try (now split).
  rewrite !finish_item_keep. simpl.
  rewrite Hclock, Htick, (urljoin_same env1 env2 _ _ Hurl).
  destruct (date_loop_uniform it (date_selectors cfg) (utcnow env2 (ticks w2)))
    as (r & evs & Hrun).
  rewrite !Hrun. simpl. split; [reflexivity|]. now rewrite Htick.
Qed.

Lemma scrape_item_uniform cfg it :
  exists title_el link_el evs,
    forall env w,
      scrape_item env cfg it w
      = finish_item env cfg it title_el link_el (advance evs 0 w).
Proof.
  destruct (title_loop_logs it (title_selectors cfg)) as (tv & e1 & Ht & _).
  destruct (link_loop_logs it (link_selectors cfg) None) as (lv & e2 & Hl & _).
  exists tv, lv, (e1 ++ e2). intros env w.
  unfold scrape_item, bind. rewrite (Ht w), (Hl _). now rewrite advance_advance.
Qed.

Lemma items_loop_same env1 env2 cfg cands :
  (forall b u, urljoin_rfc env1 b u = urljoin_rfc env2 b u) ->
  (forall k, utcnow env1 k = utcnow env2 k) ->
  forall items w1 w2,
    ticks w1 = ticks w2 ->
    fst (items_loop env1 cfg cands items w1) = fst (items_loop env2 cfg cands items w2).
Proof.
  intros Hurl Hclock.
  induction cands as [|it rest IH]; intros items w1 w2 Htick; simpl; [reflexivity|].
  unfold bind.
  destruct (scrape_item_uniform cfg it) as (tv & lv & evs & Hrun).
  rewrite !Hrun.
  destruct (finish_item_same env1 env2 cfg it tv lv
              (advance evs 0 w1) (advance evs 0 w2) Hurl Hclock) as (Hfst & Hsnd).
  { simpl. now rewrite Htick. }
  destruct (finish_item env1 cfg it tv lv (advance evs 0 w1)) as [r1 w1'].
  destruct (finish_item env2 cfg it tv lv (advance evs 0 w2)) as [r2 w2'].
  simpl in Hfst, Hsnd. subst r2.
  destruct r1 as [r|e]; [|reflexivity]. now apply IH.
Qed.

(** X12: the informational checks do not alter the outcome.  Two
    environments that answer the request for the page alike and have the
    same parser, resolver and clock give the same result of
    [scrape_items], items or exception, whatever they answer on every
    other URL, and whatever was done before in the worlds the calls start
    in, as long as the clock was read equally often. *)
Theorem checks_do_not_alter_outcome env1 env2 cfg w1 w2 :
  same_page env1 env2 (page_url cfg) ->
  ticks w1 = ticks w2 ->
  fst (scrape_items env1 cfg w1) = fst (scrape_items env2 cfg w2).
Proof.
  intros (Hget & Hsoup & Hurl & Hclock) Htick.
  destruct (http_get env1 (page_url cfg)) as [html|] eqn:Hget1; symmetry in Hget.
  - destruct (first_match_or_none (BeautifulSoup env1 html) (item_selectors cfg))
      as [Hnone|(pre & s & post & Hfirst)].
    + destruct (scrape_items_none env1 cfg html Hget1 Hnone) as (evs1 & _ & Hrun1).
      rewrite Hsoup in Hnone.
      destruct (scrape_items_none env2 cfg html Hget Hnone) as (evs2 & _ & Hrun2).
      now rewrite Hrun1, Hrun2.
    + destruct (scrape_items_run env1 cfg html pre s post Hget1 Hfirst) as (evs1 & _ & Hrun1).
      rewrite Hsoup in Hfirst.
      destruct (scrape_items_run env2 cfg html pre s post Hget Hfirst) as (evs2 & _ & Hrun2).
      rewrite Hrun1, Hrun2, Hsoup. unfold extract, bind.
      pose proof (items_loop_same env1 env2 cfg
                    (take 30 (select (BeautifulSoup env2 html) s)) Hurl Hclock []
                    (advance (Get (page_url cfg) :: evs1
                              ++ map (Select (BeautifulSoup env2 html)) (pre ++ [s])) 0 w1)
                    (advance (Get (page_url cfg) :: evs2
                              ++ map (Select (BeautifulSoup env2 html)) (pre ++ [s])) 0 w2))
        as Hsame.
      destruct (items_loop env1 cfg _ [] _) as [r1 w1'].
      destruct (items_loop env2 cfg _ [] _) as [r2 w2'].
      simpl in Hsame. rewrite <- Hsame by (now rewrite Htick).
      destruct r1 as [[|x r]|e]; reflexivity.
  - now rewrite (scrape_items_offline env1 cfg Hget1), (scrape_items_offline env2 cfg Hget).
Qed.

Lemma checks_do_not_alter_outcome_witness :
  let soup := Sample.page [Sample.article_dmy] in
  same_page (Sample.site soup) (Sample2.server soup) (page_url Sample.cfg)
  /\ rss_hit (Sample.site soup) "https://example.hr/rss.xml" = false
  /\ rss_hit (Sample2.server soup) "https://example.hr/rss.xml" = true
  /\ fst (scrape_items (Sample.site soup) Sample.cfg Sample.w0)
     = fst (scrape_items (Sample2.server soup) Sample.cfg Sample.w_old).
Proof.
  intros soup.
  assert (Hsame : same_page (Sample.site soup) (Sample2.server soup) (page_url Sample.cfg)).
  { repeat split. }
  split; [exact Hsame|]. split; [reflexivity|]. split; [reflexivity|].
  exact (checks_do_not_alter_outcome (Sample.site soup) (Sample2.server soup)
           Sample.cfg Sample.w0 Sample.w_old Hsame eq_refl).
Defined.

(** ** The feed object and the output file *)

Lemma add_item_channel fg it :
  fg_title (add_item fg it) = fg_title fg
  /\ fg_link (add_item fg it) = fg_link fg
  /\ fg_description (add_item fg it) = fg_description fg
  /\ fg_language (add_item fg it) = fg_language fg.
Proof. repeat split. Qed.

(** X13: the channel of the feed does not depend on the items: whatever
    was extracted, its title is the title of the configuration, its link
    the page URL with relation [alternate], its description the fixed text
    followed by the page URL, and its language [hr]. *)
Theorem feed_channel cfg items :
  fg_title (feed_of cfg items) = Some (title cfg)
  /\ fg_link (feed_of cfg items) = Some (page_url cfg, "alternate")
  /\ fg_description (feed_of cfg items) = Some ("Generirani RSS za: " +:+ page_url cfg)
  /\ fg_language (feed_of cfg items) = Some "hr".
Proof.
  unfold feed_of.
  set (fg := {| fg_title := Some (title cfg);
                fg_link := Some (page_url cfg, "alternate");
                fg_description := Some ("Generirani RSS za: " +:+ page_url cfg);
                fg_language := Some "hr"; fg_entries := [] |}).
  change (fg_title (fold_left add_item items fg) = fg_title fg
          /\ fg_link (fold_left add_item items fg) = fg_link fg
          /\ fg_description (fold_left add_item items fg) = fg_description fg
          /\ fg_language (fold_left add_item items fg) = fg_language fg).
  generalize fg. clear fg.
  induction items as [|it r IH]; intros fg; simpl; [repeat split|].
  destruct (IH (add_item fg it)) as (H1 & H2 & H3 & H4).
  destruct (add_item_channel fg it) as (E1 & E2 & E3 & E4).
  rewrite H1, H2, H3, H4. auto.
Qed.

Lemma build_rss_split env cfg out_dir :
  build_rss env cfg out_dir
  = (items <- scrape_items env cfg ;; write_feed env cfg out_dir (feed_of cfg items)).
Proof. reflexivity. Qed.

Lemma prefixes_self (p : Path) : p <> [] -> In p (prefixes p).
Proof.
  induction p as [|c r IH]; [contradiction|]. intros _. simpl.
  destruct r as [|c' r']; [now left|].
  right. apply in_map. apply IH. discriminate.
Qed.

Lemma prefixes_length (p q : Path) : In q (prefixes p) -> (length q <= length p)%nat.
Proof.
  revert q. induction p as [|c r IH]; intros q; simpl; [contradiction|].
  intros [<-|Hq]; [simpl; lia|].
  apply in_map_iff in Hq. destruct Hq as (q' & <- & Hq'). apply IH in Hq'. simpl. lia.
Qed.

Lemma mkdir_each_frame ps : forall w,
  files (snd (mkdir_each ps w)) = files w
  /\ dirs w ⊆ dirs (snd (mkdir_each ps w))
  /\ trace (snd (mkdir_each ps w)) = trace w
  /\ ticks (snd (mkdir_each ps w)) = ticks w.
Proof.
  induction ps as [|p rest IH]; intros w; simpl; [repeat split; reflexivity|].
  destruct (files w !! p); simpl; [repeat split; reflexivity|].
  destruct (IH (add_dir p w)) as (Hf & Hd & Ht & Hk). simpl in *.
  repeat split; try assumption.
  etrans; [|exact Hd]. apply union_subseteq_r.
Qed.

Lemma mkdir_each_ok ps : forall w,
  Forall (fun p => files w !! p = None) ps ->
  fst (mkdir_each ps w) = Ok tt
  /\ forall q, q ∈ dirs (snd (mkdir_each ps w)) <-> In q ps \/ q ∈ dirs w.
Proof.
  induction ps as [|p rest IH]; intros w Hfree; simpl.
  - split; [reflexivity|]. intros q. tauto.
  - inversion Hfree as [|? ? Hp Hrest]; subst. rewrite Hp.
    destruct (IH (add_dir p w) Hrest) as (Hok & Hdirs).
    split; [exact Hok|]. intros q. rewrite Hdirs. simpl.
    rewrite elem_of_union, elem_of_singleton. intuition.
Qed.

Lemma is_dir_file (out_dir : Path) (x : string) w :
  is_dir (out_dir ++ [x]) w = bool_decide (out_dir ++ [x] ∈ dirs w).
Proof. destruct out_dir; reflexivity. Qed.

Lemma is_dir_made (out_dir : Path) w :
  (forall q, In q (prefixes out_dir) -> q ∈ dirs w) -> is_dir out_dir w = true.
Proof.
  intros H. destruct out_dir as [|c r]; [reflexivity|].
  simpl. apply bool_decide_eq_true. apply H, prefixes_self. discriminate.
Qed.

(** The tail of [build_rss] when nothing is in its way. *)
Lemma write_feed_ok env cfg out_dir fg data w :
  rss_str env fg = Ok data ->
  Forall (fun p => files w !! p = None) (prefixes out_dir) ->
  out_path cfg out_dir ∉ dirs w ->
  exists w',
    write_feed env cfg out_dir fg w = (Ok (out_path cfg out_dir), w')
    /\ files w' = <[ out_path cfg out_dir := data ]> (files w)
    /\ trace w' = trace w ++ [Mkdir out_dir; WriteBytes (out_path cfg out_dir) data]
    /\ ticks w' = ticks w
    /\ forall q, q ∈ dirs w' <-> In q (prefixes out_dir) \/ q ∈ dirs w.
Proof.
  intros Hdata Hfree Hnodir.
  unfold write_feed, mkdir, bind, emit, lift. fold (out_path cfg out_dir).
  set (w2 := advance [Mkdir out_dir] 0 w).
  destruct (mkdir_each_ok (prefixes out_dir) w2 Hfree) as (Hok & Hdirs).
  destruct (mkdir_each_frame (prefixes out_dir) w2) as (Hf & _ & Ht & Hk).
  destruct (mkdir_each (prefixes out_dir) w2) as [r3 w3]. simpl in Hok, Hdirs, Hf, Ht, Hk.
  subst r3. rewrite Hdata. unfold write_bytes, bind, emit.
  set (w4 := advance [WriteBytes (out_path cfg out_dir) data] 0 w3).
  assert (Hfile : is_dir (out_path cfg out_dir) w4 = false).
  { unfold out_path. rewrite is_dir_file. apply bool_decide_eq_false.
    change (dirs w4) with (dirs w3). rewrite Hdirs. intros [Hin|Hin].
    - apply prefixes_length in Hin. rewrite length_app in Hin. simpl in Hin. lia.
    - now apply Hnodir. }
  assert (Hdir : is_dir (removelast (out_path cfg out_dir)) w4 = true).
  { unfold out_path. rewrite removelast_last. apply is_dir_made.
    intros q Hq. change (dirs w4) with (dirs w3). apply Hdirs. now left. }
  rewrite Hfile, Hdir. simpl.
  eexists. split; [reflexivity|]. simpl. repeat split.
  - now rewrite Hf.
  - rewrite Ht. simpl. now rewrite <- app_assoc.
  - rewrite Hk. simpl. lia.
  - apply Hdirs.
  - apply Hdirs.
Qed.

(** The tail of [build_rss] when the serializer raises. *)
Lemma write_feed_unserialized env cfg out_dir fg e w :
  rss_str env fg = Raise e ->
  Forall (fun p => files w !! p = None) (prefixes out_dir) ->
  exists w',
    write_feed env cfg out_dir fg w = (Raise e, w')
    /\ files w' = files w
    /\ trace w' = trace w ++ [Mkdir out_dir]
    /\ is_dir out_dir w' = true.
Proof.
  intros Hdata Hfree.
  unfold write_feed, mkdir, bind, emit, lift.
  set (w2 := advance [Mkdir out_dir] 0 w).
  destruct (mkdir_each_ok (prefixes out_dir) w2 Hfree) as (Hok & Hdirs).
  destruct (mkdir_each_frame (prefixes out_dir) w2) as (Hf & _ & Ht & _).
  destruct (mkdir_each (prefixes out_dir) w2) as [r3 w3]. simpl in Hok, Hdirs, Hf, Ht.
  subst r3. rewrite Hdata.
  eexists. split; [reflexivity|]. repeat split; [exact Hf|exact Ht|].
  apply is_dir_made. intros q Hq. apply Hdirs. now left.
Qed.

(** The tail of [build_rss] never touches a file but its own. *)
Lemma write_feed_frame env cfg out_dir fg w :
  fs_grows (out_path cfg out_dir) w (snd (write_feed env cfg out_dir fg w)).
Proof.
  unfold write_feed, mkdir, bind, emit, lift. fold (out_path cfg out_dir).
  set (w2 := advance [Mkdir out_dir] 0 w).
  destruct (mkdir_each_frame (prefixes out_dir) w2) as (Hf & Hd & _).
  destruct (mkdir_each (prefixes out_dir) w2) as [[[]|e] w3]; simpl in Hf, Hd.
  2:{ simpl. split; [exact Hd|]. intros q _. now rewrite Hf. }
  destruct (rss_str env fg) as [data|e].
  2:{ simpl. split; [exact Hd|]. intros q _. now rewrite Hf. }
  unfold write_bytes, bind, emit.
  destruct (is_dir (out_path cfg out_dir) _); simpl.
  { split; [exact Hd|]. intros q _. simpl. now rewrite Hf. }
  destruct (is_dir (removelast (out_path cfg out_dir)) _); simpl.
  - split; [exact Hd|]. intros q Hq. simpl.
    rewrite lookup_insert_ne by congruence. now rewrite Hf.
  - split; [exact Hd|]. intros q _. simpl. now rewrite Hf.
Qed.

(** X14: when [scrape_items] returns items, the serializer accepts the
    feed, no regular file stands where the output directory or one of its
    parents should be, and the output path is not a directory, [build_rss]
    returns the path [out_dir/slug.xml]; afterwards that file holds the
    serialized feed of exactly these items (whatever it held before), no
    other file has changed, the output directory and its parents exist,
    and the only file-system events, [mkdir] then [write_bytes], come
    after everything else. *)
Theorem build_rss_writes_feed env cfg out_dir w items data :
  fst (scrape_items env cfg w) = Ok items ->
  rss_str env (feed_of cfg items) = Ok data ->
  Forall (fun p => files w !! p = None) (prefixes out_dir) ->
  out_path cfg out_dir ∉ dirs w ->
  fst (build_rss env cfg out_dir w) = Ok (out_path cfg out_dir)
  /\ files (snd (build_rss env cfg out_dir w))
     = <[ out_path cfg out_dir := data ]> (files w)
  /\ files (snd (build_rss env cfg out_dir w)) !! out_path cfg out_dir = Some data
  /\ (forall q, q ∈ dirs (snd (build_rss env cfg out_dir w))
                <-> In q (prefixes out_dir) \/ q ∈ dirs w)
  /\ exists evs,
       Forall (fun ev => ~ is_fs ev) evs
       /\ trace (snd (build_rss env cfg out_dir w))
          = trace w ++ evs ++ [Mkdir out_dir; WriteBytes (out_path cfg out_dir) data].
Proof.
  intros Hok Hdata Hfree Hnodir.
  destruct (scrape_items_effects env cfg w) as (evs & k & Hw & Hevs).
  rewrite build_rss_split. unfold bind.
  destruct (scrape_items env cfg w) as [[items'|e] w1]; simpl in Hok, Hw; [|discriminate].
  injection Hok as ->. subst w1.
  destruct (write_feed_ok env cfg out_dir (feed_of cfg items) data (advance evs k w)
              Hdata Hfree Hnodir) as (w' & Hrun & Hfiles & Htrace & _ & Hdirs).
  rewrite Hrun. simpl. repeat split.
  - exact Hfiles.
  - rewrite Hfiles. simpl. apply lookup_insert_eq.
  - apply Hdirs.
  - apply Hdirs.
  - exists evs. split; [exact Hevs|]. rewrite Htrace. simpl. now rewrite <- app_assoc.
Qed.

Lemma build_rss_writes_feed_witness :
  let env := Sample.site (Sample.page [Sample.article_dmy]) in
  let items := [ {| it_title := txt "Naslov"; it_link := Some "https://example.hr/a1";
                    it_date := {| year := 2024; month := 5; day := 12; hour := 0;
                                  minute := 0; second := 0; microsecond := 0 |} |} ] in
  fst (scrape_items env Sample.cfg Sample.w_old) = Ok items
  /\ rss_str env (feed_of Sample.cfg items) = Ok "<rss/>"
  /\ files Sample.w_old !! ["docs"; "rss"; "vijesti.xml"] = Some "<rss>old</rss>"
  /\ fst (build_rss env Sample.cfg ["docs"; "rss"] Sample.w_old)
     = Ok ["docs"; "rss"; "vijesti.xml"]
  /\ files (snd (build_rss env Sample.cfg ["docs"; "rss"] Sample.w_old))
     !! ["docs"; "rss"; "vijesti.xml"] = Some "<rss/>".
Proof.
  intros env items.
  assert (Hok : fst (scrape_items env Sample.cfg Sample.w_old) = Ok items)
    by (vm_compute; reflexivity).
  assert (Hdata : rss_str env (feed_of Sample.cfg items) = Ok "<rss/>") by reflexivity.
  assert (Hfree : Forall (fun p => files Sample.w_old !! p = None) (prefixes ["docs"; "rss"])).
  { repeat constructor; vm_compute; reflexivity. }
  assert (Hnodir : out_path Sample.cfg ["docs"; "rss"] ∉ dirs Sample.w_old).
  { simpl. intros [H|H]%elem_of_union; apply elem_of_singleton in H; discriminate. }
  destruct (build_rss_writes_feed env Sample.cfg ["docs"; "rss"] Sample.w_old items "<rss/>"
              Hok Hdata Hfree Hnodir) as (Hpath & _ & Hfile & _).
  split; [exact Hok|]. split; [exact Hdata|]. split; [vm_compute; reflexivity|].
  split; [exact Hpath|exact Hfile].
Defined.

Lemma build_rss_frame env cfg out_dir w :
  fs_grows (out_path cfg out_dir) w (snd (build_rss env cfg out_dir w)).
Proof.
  destruct (scrape_items_effects env cfg w) as (evs & k & Hw & _).
  rewrite build_rss_split. unfold bind.
  destruct (scrape_items env cfg w) as [[items|e] w1]; simpl in Hw; subst w1.
  - apply (write_feed_frame env cfg out_dir (feed_of cfg items) (advance evs k w)).
  - simpl. split; [reflexivity|]. intros q _. reflexivity.
Qed.

(** X15: in every case, successful or not, [build_rss] leaves every file
    other than [out_dir/slug.xml] as it was, and removes no directory. *)
Theorem build_rss_touches_only_its_file env cfg out_dir w :
  fs_grows (out_path cfg out_dir) w (snd (build_rss env cfg out_dir w)).
Proof. apply build_rss_frame. Qed.

(** X16: when the items are extracted but the serializer raises,
    [build_rss] raises the same exception after it has made the output
    directory: the directory exists, no file is written or changed, and
    [mkdir] is the only file-system event. *)
Theorem build_rss_serializer_failure env cfg out_dir w items e :
  fst (scrape_items env cfg w) = Ok items ->
  rss_str env (feed_of cfg items) = Raise e ->
  Forall (fun p => files w !! p = None) (prefixes out_dir) ->
  fst (build_rss env cfg out_dir w) = Raise e
  /\ files (snd (build_rss env cfg out_dir w)) = files w
  /\ is_dir out_dir (snd (build_rss env cfg out_dir w)) = true
  /\ exists evs,
       Forall (fun ev => ~ is_fs ev) evs
       /\ trace (snd (build_rss env cfg out_dir w)) = trace w ++ evs ++ [Mkdir out_dir].
Proof.
  intros Hok Hdata Hfree.
  destruct (scrape_items_effects env cfg w) as (evs & k & Hw & Hevs).
  rewrite build_rss_split. unfold bind.
  destruct (scrape_items env cfg w) as [[items'|e'] w1]; simpl in Hok, Hw; [|discriminate].
  injection Hok as ->. subst w1.
  destruct (write_feed_unserialized env cfg out_dir (feed_of cfg items) e (advance evs k w)
              Hdata Hfree) as (w' & Hrun & Hfiles & Htrace & Hdir).
  rewrite Hrun. simpl. repeat split; [exact Hfiles|exact Hdir|].
  exists evs. split; [exact Hevs|]. rewrite Htrace. simpl. now rewrite <- app_assoc.
Qed.

Lemma build_rss_serializer_failure_witness :
  let env := Sample2.broken_serializer (Sample.page [Sample.article_dmy]) in
  fst (build_rss env Sample.cfg ["docs"; "rss"] Sample.w0)
  = Raise (ValueError "Required fields not set")
  /\ files (snd (build_rss env Sample.cfg ["docs"; "rss"] Sample.w0)) = files Sample.w0
  /\ is_dir ["docs"; "rss"] (snd (build_rss env Sample.cfg ["docs"; "rss"] Sample.w0)) = true.
Proof.
  intros env.
  assert (Hok : fst (scrape_items env Sample.cfg Sample.w0)
                = Ok [ {| it_title := txt "Naslov"; it_link := Some "https://example.hr/a1";
                          it_date := {| year := 2024; month := 5; day := 12; hour := 0;
                                        minute := 0; second := 0; microsecond := 0 |} |} ])
    by (vm_compute; reflexivity).
  assert (Hfree : Forall (fun p => files Sample.w0 !! p = None) (prefixes ["docs"; "rss"])).
  { repeat constructor; vm_compute; reflexivity. }
  destruct (build_rss_serializer_failure env Sample.cfg ["docs"; "rss"] Sample.w0 _
              (ValueError "Required fields not set") Hok eq_refl Hfree)
    as (Hraise & Hfiles & Hdir & _).
  split; [exact Hraise|]. split; [exact Hfiles|exact Hdir].
Defined.

(** ** The runner *)

Lemma main_loop_app env pre post out_dir w :
  main_loop env (pre ++ post) out_dir w
  = match main_loop env pre out_dir w with
    | (Ok _, w1) => main_loop env post out_dir w1
    | (Raise e, w1) => (Raise e, w1)
    end.
Proof.
  revert w. induction pre as [|cfg rest IH]; intros w; simpl; [reflexivity|].
  unfold bind. destruct (build_rss env cfg out_dir w) as [[p|e] w1]; [|reflexivity].
  unfold emit. apply IH.
Qed.

(** X17: the runner stops at the first site that fails.  If the sites
    before [cfg] are built and [build_rss] raises for [cfg], the run raises
    the same exception and ends in the world that call left: nothing is
    requested, printed or written for the sites after it, whatever they
    are. *)
Theorem main_stops_at_first_failure env pre cfg post out_dir w w1 e :
  main_loop env pre out_dir w = (Ok tt, w1) ->
  fst (build_rss env cfg out_dir w1) = Raise e ->
  main_loop env (pre ++ cfg :: post) out_dir w
  = (Raise e, snd (build_rss env cfg out_dir w1)).
Proof.
  intros Hpre Hfail. rewrite main_loop_app, Hpre. simpl. unfold bind.
  destruct (build_rss env cfg out_dir w1) as [[p|e'] w2]; simpl in Hfail; [discriminate|].
  now injection Hfail as ->.
Qed.

Lemma main_stops_at_first_failure_witness :
  let env := Sample2.server (Sample.page [Sample.article_dmy]) in
  let w1 := snd (main_loop env [Sample.cfg] ["docs"; "rss"] Sample.w0) in
  main_loop env [Sample.cfg] ["docs"; "rss"] Sample.w0 = (Ok tt, w1)
  /\ fst (build_rss env Sample2.missing ["docs"; "rss"] w1)
     = Raise (RequestException "https://example.hr/nema/")
  /\ main_loop env ([Sample.cfg] ++ Sample2.missing :: [Sample2.sport]) ["docs"; "rss"] Sample.w0
     = (Raise (RequestException "https://example.hr/nema/"),
        snd (build_rss env Sample2.missing ["docs"; "rss"] w1))
  /\ files (snd (build_rss env Sample2.missing ["docs"; "rss"] w1))
     !! ["docs"; "rss"; "sport.xml"] = None.
Proof.
  intros env w1.
  assert (Hpre : main_loop env [Sample.cfg] ["docs"; "rss"] Sample.w0 = (Ok tt, w1)).
  { unfold w1. destruct (main_loop env [Sample.cfg] ["docs"; "rss"] Sample.w0) as [r w'] eqn:E.
    assert (Hr : fst (main_loop env [Sample.cfg] ["docs"; "rss"] Sample.w0) = Ok tt)
      by (vm_compute; reflexivity).
    rewrite E in Hr. simpl in Hr. now subst r. }
  assert (Hfail : fst (build_rss env Sample2.missing ["docs"; "rss"] w1)
                  = Raise (RequestException "https://example.hr/nema/"))
    by (vm_compute; reflexivity).
  split; [exact Hpre|]. split; [exact Hfail|].
  split; [|vm_compute; reflexivity].
  exact (main_stops_at_first_failure env [Sample.cfg] Sample2.missing [Sample2.sport]
           ["docs"; "rss"] Sample.w0 w1 _ Hpre Hfail).
Defined.

Lemma length_append (a b : string) :
  String.length (a +:+ b) = (String.length a + String.length b)%nat.
Proof.
  induction a as [|c a IH]; [reflexivity|].
  change (S (String.length (a +:+ b)) = S (String.length a + String.length b)).
  now rewrite IH.
Qed.

Lemma append_cancel_r (x : string) : forall a b : string, a +:+ x = b +:+ x -> a = b.
Proof.
  induction a as [|c a IH]; intros [|c' b] E.
  - reflexivity.
  - apply (f_equal String.length) in E. rewrite !length_append in E. simpl in E. lia.
  - apply (f_equal String.length) in E. rewrite !length_append in E. simpl in E. lia.
  - change (String c (a +:+ x) = String c' (b +:+ x)) in E.
    injection E as -> E. now rewrite (IH _ E).
Qed.

Lemma out_path_slug cfg1 cfg2 out_dir :
  out_path cfg1 out_dir = out_path cfg2 out_dir -> slug cfg1 = slug cfg2.
Proof.
  unfold out_path. intros E. apply app_inv_head in E. injection E as E.
  now apply append_cancel_r in E.
Qed.

(** A run of [build_rss] that returns has written its file with the feed
    of the items scraped in the world it started in. *)
Lemma build_rss_ok_inv env cfg out_dir w p w1 :
  build_rss env cfg out_dir w = (Ok p, w1) ->
  p = out_path cfg out_dir
  /\ exists items data,
       fst (scrape_items env cfg w) = Ok items
       /\ rss_str env (feed_of cfg items) = Ok data
       /\ files w1 !! out_path cfg out_dir = Some data.
Proof.
  rewrite build_rss_split. unfold bind.
  destruct (scrape_items env cfg w) as [[items|e] w0]; [|discriminate].
  unfold write_feed, mkdir, bind, emit, lift. fold (out_path cfg out_dir).
  destruct (mkdir_each (prefixes out_dir) _) as [[[]|e] w3]; [|discriminate].
  destruct (rss_str env (feed_of cfg items)) as [data|e] eqn:Hdata; [|discriminate].
  unfold write_bytes, bind, emit.
  destruct (is_dir (out_path cfg out_dir) _); [discriminate|].
  destruct (is_dir (removelast (out_path cfg out_dir)) _); simpl; [|discriminate].
  intros E. injection E as <- <-. split; [reflexivity|].
  exists items, data. split; [reflexivity|]. split; [exact Hdata|].
  simpl. apply lookup_insert_eq.
Qed.

Lemma main_loop_frame env out_dir configs :
  forall w q,
    (forall cfg, In cfg configs -> q <> out_path cfg out_dir) ->
    files (snd (main_loop env configs out_dir w)) !! q = files w !! q.
Proof.
  induction configs as [|cfg rest IH]; intros w q Hq; simpl; [reflexivity|].
  unfold bind.
  destruct (build_rss_frame env cfg out_dir w) as (_ & Hframe).
  specialize (Hframe q (Hq cfg (or_introl eq_refl))).
  destruct (build_rss env cfg out_dir w) as [[p|e] w1]; simpl in Hframe; [|exact Hframe].
  unfold emit. rewrite IH by (intros c Hc; apply Hq; now right). exact Hframe.
Qed.

Lemma main_loop_ok_prefix env pre post out_dir w :
  fst (main_loop env (pre ++ post) out_dir w) = Ok tt ->
  main_loop env pre out_dir w = (Ok tt, snd (main_loop env pre out_dir w))
  /\ main_loop env (pre ++ post) out_dir w
     = main_loop env post out_dir (snd (main_loop env pre out_dir w)).
Proof.
  rewrite main_loop_app.
  destruct (main_loop env pre out_dir w) as [[[]|e] w1]; simpl; [|discriminate].
  now split.
Qed.

(** After a run over sites with distinct slugs that returns, each site has
    its file, with the feed of the items scraped when its turn came. *)
Lemma main_loop_writes env sites out_dir w :
  NoDup (map slug sites) ->
  fst (main_loop env sites out_dir w) = Ok tt ->
  forall pre cfg post,
    sites = pre ++ cfg :: post ->
    exists items data,
      fst (scrape_items env cfg (snd (main_loop env pre out_dir w))) = Ok items
      /\ rss_str env (feed_of cfg items) = Ok data
      /\ files (snd (main_loop env sites out_dir w)) !! out_path cfg out_dir = Some data.
Proof.
  intros Hnodup Hok pre cfg post ->.
  destruct (main_loop_ok_prefix env pre (cfg :: post) out_dir w Hok) as (_ & Hrun).
  rewrite Hrun in Hok |- *.
  set (w1 := snd (main_loop env pre out_dir w)) in *.
  simpl in Hok |- *. unfold bind in Hok |- *.
  destruct (build_rss env cfg out_dir w1) as [[p|e] w2] eqn:Hbuild; [|discriminate].
  destruct (build_rss_ok_inv env cfg out_dir w1 p w2 Hbuild)
    as (-> & items & data & Hitems & Hdata & Hfile).
  exists items, data. split; [exact Hitems|]. split; [exact Hdata|].
  unfold emit. rewrite main_loop_frame; [exact Hfile|].
  intros c Hc E. apply out_path_slug in E.
  rewrite map_app in Hnodup. apply NoDup_app in Hnodup.
  destruct Hnodup as (_ & _ & Hnodup). simpl in Hnodup.
  apply NoDup_cons in Hnodup. destruct Hnodup as (Hfresh & _).
  apply Hfresh. rewrite E. apply list_elem_of_In. now apply in_map.
Qed.

Lemma configs_slugs :
  NoDup (map slug configs) /\ Forall (fun cfg => token (slug cfg) = true) configs.
Proof.
  split; [|repeat constructor].
  simpl. repeat (apply NoDup_cons; split;
                 [intros H; repeat (apply elem_of_cons in H as [H|H]; [discriminate|]);
                  now apply not_elem_of_nil in H|]).
  apply NoDup_nil_2.
Qed.

(** X18: after a run of the runner that returns, over sites whose slugs
    are pairwise distinct file names, every site has its file
    [out_dir/slug.xml], and the file holds the serialization of the feed
    of the items that [scrape_items] returned for that site when its turn
    came, in the world that the sites before it had left: no later site
    has overwritten it.  The three slugs of [main] are distinct file
    names, so a run of [main] that returns leaves [docs/rss/cistoca.xml],
    [docs/rss/autotrolej.xml] and [docs/rss/rijeka-plus.xml], each with the
    feed of its site. *)
Theorem main_writes_every_feed env :
  (forall sites out_dir w,
     NoDup (map slug sites) ->
     Forall (fun cfg => token (slug cfg) = true) sites ->
     fst (main_loop env sites out_dir w) = Ok tt ->
     forall pre cfg post,
       sites = pre ++ cfg :: post ->
       exists items data,
         fst (scrape_items env cfg (snd (main_loop env pre out_dir w))) = Ok items
         /\ rss_str env (feed_of cfg items) = Ok data
         /\ files (snd (main_loop env sites out_dir w)) !! out_path cfg out_dir
            = Some data)
  /\ NoDup (map slug configs)
  /\ Forall (fun cfg => token (slug cfg) = true) configs
  /\ map (fun cfg => out_path cfg ["docs"; "rss"]) configs
     = [ ["docs"; "rss"; "cistoca.xml"]; ["docs"; "rss"; "autotrolej.xml"];
         ["docs"; "rss"; "rijeka-plus.xml"] ]
  /\ (forall w,
        fst (main env w) = Ok tt ->
        forall pre cfg post,
          configs = pre ++ cfg :: post ->
          exists items data,
            fst (scrape_items env cfg (snd (main_loop env pre ["docs"; "rss"] w))) = Ok items
            /\ rss_str env (feed_of cfg items) = Ok data
            /\ files (snd (main env w)) !! out_path cfg ["docs"; "rss"] = Some data).
Proof.
  destruct configs_slugs as (Hnodup & Htoken).
  split; [|split; [exact Hnodup|split; [exact Htoken|split; [reflexivity|]]]].
  - intros sites out_dir w Hnd _ Hok. now apply main_loop_writes.
  - intros w Hok. now apply (main_loop_writes env configs ["docs"; "rss"] w).
Qed.

Lemma main_writes_every_feed_witness :
  let env := Sample2.server (Sample.page [Sample.article_dmy]) in
  let city := Sample2.rijeka (Sample.page [Sample.article_dmy]) in
  (NoDup (map slug [Sample.cfg; Sample2.sport])
   /\ Forall (fun cfg => token (slug cfg) = true) [Sample.cfg; Sample2.sport]
   /\ fst (main_loop env [Sample.cfg; Sample2.sport] ["docs"; "rss"] Sample.w0) = Ok tt
   /\ exists items data,
        fst (scrape_items env Sample.cfg
               (snd (main_loop env [] ["docs"; "rss"] Sample.w0))) = Ok items
        /\ rss_str env (feed_of Sample.cfg items) = Ok data
        /\ files (snd (main_loop env [Sample.cfg; Sample2.sport]
                                 ["docs"; "rss"] Sample.w0))
           !! out_path Sample.cfg ["docs"; "rss"] = Some data)
  /\ (fst (main city Sample.w0) = Ok tt
      /\ forall pre cfg post,
           configs = pre ++ cfg :: post ->
           exists items data,
             fst (scrape_items city cfg (snd (main_loop city pre ["docs"; "rss"] Sample.w0)))
             = Ok items
             /\ rss_str city (feed_of cfg items) = Ok data
             /\ files (snd (main city Sample.w0)) !! out_path cfg ["docs"; "rss"]
                = Some data).
Proof.
  intros env city.
  assert (Hnodup : NoDup (map slug [Sample.cfg; Sample2.sport])).
  { apply NoDup_cons. split; [|apply NoDup_singleton].
    intros H%list_elem_of_singleton. discriminate. }
  assert (Htoken : Forall (fun cfg => token (slug cfg) = true) [Sample.cfg; Sample2.sport])
    by (repeat constructor).
  assert (Hok : fst (main_loop env [Sample.cfg; Sample2.sport] ["docs"; "rss"] Sample.w0)
                = Ok tt) by (vm_compute; reflexivity).
  assert (Hmain : fst (main city Sample.w0) = Ok tt) by (vm_compute; reflexivity).
  split.
  - split; [exact Hnodup|]. split; [exact Htoken|]. split; [exact Hok|].
    exact (proj1 (main_writes_every_feed env) [Sample.cfg; Sample2.sport] ["docs"; "rss"]
             Sample.w0 Hnodup Htoken Hok [] Sample.cfg [Sample2.sport] eq_refl).
  - split; [exact Hmain|].
    exact (proj2 (proj2 (proj2 (proj2 (main_writes_every_feed city)))) Sample.w0 Hmain).
Defined.
